(** * The to-do list server: a shallow embedding of [src/index.js]

    The server keeps two collections in a document store: the flat [Item]
    collection ([src/models/itemSchema.js]), which backs the virtual "today"
    list, and the [List] collection ([./models/listSchema.js]), whose
    documents embed their own copies of items.  Five route handlers read and
    write them.

    Modelling decisions.
    - The store is explicit state ([DB]); the handlers are computations in a
      small state monad ([Store]), one store call per monadic step, in the
      order of the [await]s of the source.
    - A text is the UTF-8 encoding of the JavaScript string; [chars] cuts it
      into its characters.  Equality, emptiness and concatenation of texts
      are those of the strings.
    - What the code takes from its libraries and cannot be written down
      here is a parameter, the [Runtime]: the case mapping of the language
      ([toLowerCase], [toUpperCase]), the way lodash cuts off the first
      symbol of a text ([splitFirst]) and the cast of a text to an
      identifier by the object-document mapper ([castObjectId]).  Theorems
      hold for every runtime; where one needs a fact about the real tables
      it is a hypothesis ([ascii_case], [case_facts]).  [sample_runtime] is
      one runtime, used to run the model.
    - A store call throws when the mapper cannot cast an identifier; the
      [try]/[catch] of the edit and delete handlers is modelled ([Try],
      [try_catch]).  No other store call of the handlers throws in the
      model: an unreachable store is outside it, and so are the [catch]
      branches that only it would reach.
    - A fresh identifier comes from a counter kept with the store; only its
      freshness matters.
    - A List document carries its version key [__v], which a save after a
      push increments.  The version key of an item never changes and is
      left out.
    - [getLocalDate()] reads the clock: the handlers take its value, [today],
      as an argument.
    - Body fields are strings, as the handlers document them; a field can be
      absent, or hold a non-string, where the handler itself tests for it. *)

From Stdlib Require Import List String Ascii NArith Bool Lia.
From Stdlib Require Import DecimalString DecimalN.
Import ListNotations.
Local Open Scope string_scope.

(** ** Texts and their characters *)

Definition code (c : ascii) : N := N_of_ascii c.

(** The text with the given bytes. *)
Fixpoint utf8 (bytes : list N) : string :=
  match bytes with
  | [] => EmptyString
  | b :: r => String (ascii_of_N b) (utf8 r)
  end.

(** The first character of a text (one to four bytes, by its lead byte) and
    what follows it. *)
Definition first_char (s : string) : string * string :=
  match s with
  | EmptyString => (EmptyString, EmptyString)
  | String c1 r1 =>
      if (code c1 <? 192)%N then (String c1 EmptyString, r1)
      else
        match r1 with
        | EmptyString => (s, EmptyString)
        | String c2 r2 =>
            if (code c1 <? 224)%N
            then (String c1 (String c2 EmptyString), r2)
            else
              match r2 with
              | EmptyString => (s, EmptyString)
              | String c3 r3 =>
                  if (code c1 <? 240)%N
                  then (String c1 (String c2 (String c3 EmptyString)), r3)
                  else
                    match r3 with
                    | EmptyString => (s, EmptyString)
                    | String c4 r4 =>
                        (String c1
                           (String c2 (String c3 (String c4 EmptyString))),
                         r4)
                    end
              end
        end
  end.

(** The characters of a text, in order. *)
Fixpoint chars (s : string) : list string :=
  match s with
  | EmptyString => []
  | String c1 r1 =>
      if (code c1 <? 192)%N then String c1 EmptyString :: chars r1
      else
        match r1 with
        | EmptyString => [s]
        | String c2 r2 =>
            if (code c1 <? 224)%N
            then String c1 (String c2 EmptyString) :: chars r2
            else
              match r2 with
              | EmptyString => [s]
              | String c3 r3 =>
                  if (code c1 <? 240)%N
                  then String c1 (String c2 (String c3 EmptyString))
                       :: chars r3
                  else
                    match r3 with
                    | EmptyString => [s]
                    | String c4 r4 =>
                        String c1
                          (String c2 (String c3 (String c4 EmptyString)))
                        :: chars r4
                    end
              end
        end
  end.

Fixpoint join (l : list string) : string :=
  match l with
  | [] => EmptyString
  | x :: r => x ++ join r
  end.

Fixpoint all_bytes (p : ascii -> bool) (s : string) : bool :=
  match s with
  | EmptyString => true
  | String c r => p c && all_bytes p r
  end.

Definition is_ascii (s : string) : bool :=
  all_bytes (fun c => (code c <? 128)%N) s.

Fixpoint dropWhile {A : Type} (p : A -> bool) (l : list A) : list A :=
  match l with
  | [] => []
  | x :: r => if p x then dropWhile p r else l
  end.

(** ** The case of ASCII letters *)

Definition is_upper (c : ascii) : bool :=
  (65 <=? code c)%N && (code c <=? 90)%N.

Definition is_lower (c : ascii) : bool :=
  (97 <=? code c)%N && (code c <=? 122)%N.

Definition to_lower (c : ascii) : ascii :=
  if is_upper c then ascii_of_N (code c + 32) else c.

Definition to_upper (c : ascii) : ascii :=
  if is_lower c then ascii_of_N (code c - 32) else c.

Fixpoint ascii_toLowerCase (s : string) : string :=
  match s with
  | EmptyString => EmptyString
  | String c r => String (to_lower c) (ascii_toLowerCase r)
  end.

Fixpoint ascii_toUpperCase (s : string) : string :=
  match s with
  | EmptyString => EmptyString
  | String c r => String (to_upper c) (ascii_toUpperCase r)
  end.

(** [charAt(0)] and [slice(1)] of a text without characters beyond ASCII. *)
Definition ascii_splitFirst (s : string) : string * string :=
  match s with
  | EmptyString => (EmptyString, EmptyString)
  | String c r => (String c EmptyString, r)
  end.

(** ** What the libraries provide *)

Definition ObjectId : Type := string.

Record Runtime : Type := mkRuntime {
  (** [String.prototype.toLowerCase] *)
  toLowerCase : string -> string;
  (** [String.prototype.toUpperCase] *)
  toUpperCase : string -> string;
  (** the first symbol of a text and the rest, as lodash cuts them *)
  splitFirst : string -> string * string;
  (** the mapper's cast of a text to an identifier; [None]: CastError *)
  castObjectId : string -> option ObjectId
}.

Module Lodash.

(** [_.upperFirst]: [chr.toUpperCase() + trailing]. *)
Definition upperFirst (R : Runtime) (s : string) : string :=
  let (chr, trailing) := splitFirst R s in
  toUpperCase R chr ++ trailing.

(** [_.capitalize]: [upperFirst(toString(string).toLowerCase())]. *)
Definition capitalize (R : Runtime) (s : string) : string :=
  upperFirst R (toLowerCase R s).

End Lodash.

Module JS.

(** The characters [String.prototype.trim] strips: WhiteSpace (TAB, VT, FF,
    SP, NBSP, ZWNBSP and the space separators U+1680, U+2000 to U+200A,
    U+202F, U+205F, U+3000) and LineTerminator (LF, CR, U+2028, U+2029). *)
Definition white_space : list string :=
  [ utf8 [9]; utf8 [10]; utf8 [11]; utf8 [12]; utf8 [13]; utf8 [32];
    utf8 [194; 160];
    utf8 [225; 154; 128];
    utf8 [226; 128; 128]; utf8 [226; 128; 129]; utf8 [226; 128; 130];
    utf8 [226; 128; 131]; utf8 [226; 128; 132]; utf8 [226; 128; 133];
    utf8 [226; 128; 134]; utf8 [226; 128; 135]; utf8 [226; 128; 136];
    utf8 [226; 128; 137]; utf8 [226; 128; 138];
    utf8 [226; 128; 168]; utf8 [226; 128; 169]; utf8 [226; 128; 175];
    utf8 [226; 129; 159];
    utf8 [227; 128; 128];
    utf8 [239; 187; 191] ]%N.

Definition is_space (ch : string) : bool :=
  existsb (String.eqb ch) white_space.

(** [s.trim()]: the characters of [s] without the white space at both
    ends. *)
Definition trim (s : string) : string :=
  join (rev (dropWhile is_space (rev (dropWhile is_space (chars s))))).

(** A field of [req.body] as the url-encoded parser (extended mode) leaves
    it: absent, a string, or an array or object. *)
Inductive FormValue : Type :=
| VUndefined
| VString (s : string)
| VOther.

(** The guard of the add handler,
    [!v || typeof v !== 'string' || v.trim().length === 0],
    read as a function: [None] when the guard holds and the request is
    refused, the string otherwise. *)
Definition checked_string (v : FormValue) : option string :=
  match v with
  | VUndefined => None                     (* !v *)
  | VOther => None                         (* typeof v !== 'string' *)
  | VString s =>
      if (s =? "") || Nat.eqb (String.length (trim s)) 0
      then None else Some s
  end.

(** [!v] for a field that is a string when present. *)
Definition falsy (v : option string) : bool :=
  match v with
  | None => true
  | Some s => s =? ""
  end.

End JS.

Import Lodash JS.

(** ** The clock

    [getLocalDate()] formats the current day with locale ['en-US'] and
    [{ weekday: 'long', month: 'long', day: 'numeric' }], as in
    "Monday, January 1". *)

Inductive Weekday : Type :=
| Sunday | Monday | Tuesday | Wednesday | Thursday | Friday | Saturday.

Inductive Month : Type :=
| January | February | March | April | May | June
| July | August | September | October | November | December.

Record Clock : Type := mkClock {
  weekday : Weekday;
  month : Month;
  day : N
}.

Definition weekday_long (w : Weekday) : string :=
  match w with
  | Sunday => "Sunday" | Monday => "Monday" | Tuesday => "Tuesday"
  | Wednesday => "Wednesday" | Thursday => "Thursday" | Friday => "Friday"
  | Saturday => "Saturday"
  end.

Definition month_long (m : Month) : string :=
  match m with
  | January => "January" | February => "February" | March => "March"
  | April => "April" | May => "May" | June => "June" | July => "July"
  | August => "August" | September => "September" | October => "October"
  | November => "November" | December => "December"
  end.

Definition numeric (n : N) : string :=
  NilEmpty.string_of_uint (N.to_uint n).

Definition getLocalDate (now : Clock) : string :=
  weekday_long (weekday now) ++ ", " ++ month_long (month now) ++ " "
  ++ numeric (day now).

(** ** Data model *)

(** [itemsSchema]: [{ name: String }], with the [_id] every document gets. *)
Record Item : Type := mkItem {
  item_id : ObjectId;
  item_name : string
}.

(** [listSchema]: [{ name: String, items: [itemsSchema] }], with its [_id]
    and its version key [__v]. *)
Record ListDoc : Type := mkList {
  list_id : ObjectId;
  list_name : string;
  list_items : list Item;
  list_v : N
}.

(** The store: both collections in insertion order, and the source of fresh
    identifiers. *)
Record DB : Type := mkDB {
  items : list Item;
  lists : list ListDoc;
  next_oid : N
}.

Definition empty_db : DB := mkDB [] [] 0.

Definition oid_text (n : N) : ObjectId := numeric n.

(** What a handler sends back. *)
Inductive Response : Type :=
| render (view : string) (currentTitle : string) (newListItems : list Item)
| redirect (url : string)
| status_send (code : N) (body : string).

(** What a store call throws. *)
Inductive Error : Type :=
| CastError (value : string).

(** ** The store monad *)

Definition Store (A : Type) : Type := DB -> A * DB.

Definition ret {A} (a : A) : Store A := fun db => (a, db).

Definition bind {A B} (m : Store A) (k : A -> Store B) : Store B :=
  fun db => let (a, db') := m db in k a db'.

Notation "x <- m ;; k" := (bind m (fun x => k))
  (at level 61, m at next level, right associativity).
Notation "m ;;; k" := (bind m (fun _ => k))
  (at level 61, right associativity).

(** A computation that may throw: [inl e] is the error thrown. *)
Definition Try (A : Type) : Type := Store (Error + A).

Definition try_ret {A} (a : A) : Try A := ret (inr a).

Definition throw {A} (e : Error) : Try A := ret (inl e).

Definition try_bind {A B} (m : Try A) (k : A -> Try B) : Try B :=
  r <- m ;;
  match r with
  | inl e => ret (inl e)
  | inr a => k a
  end.

(** [try { body } catch (error) { handler }] *)
Definition try_catch {A} (body : Try A) (handler : Error -> Store A)
  : Store A :=
  r <- body ;;
  match r with
  | inl e => handler e
  | inr a => ret a
  end.

Notation "m ;;? k" := (try_bind m (fun _ => k))
  (at level 61, right associativity).

(** ** List helpers for the update operators *)

Section Helpers.
Context {A : Type}.

(** Apply [f] to the first element that satisfies [p]. *)
Fixpoint update_first (p : A -> bool) (f : A -> A) (l : list A) : list A :=
  match l with
  | [] => []
  | x :: r => if p x then f x :: r else x :: update_first p f r
  end.

(** Drop the first element that satisfies [p]. *)
Fixpoint remove_first (p : A -> bool) (l : list A) : list A :=
  match l with
  | [] => []
  | x :: r => if p x then r else x :: remove_first p r
  end.

End Helpers.

Definition has_id (id : ObjectId) (it : Item) : bool := item_id it =? id.
Definition has_name (nm : string) (l : ListDoc) : bool := list_name l =? nm.

Definition set_item_name (nm : string) (it : Item) : Item :=
  mkItem (item_id it) nm.

Definition set_list_items (f : list Item -> list Item) (l : ListDoc) : ListDoc :=
  mkList (list_id l) (list_name l) (f (list_items l)) (list_v l).

(** [$push] of one item together with [$inc: { __v: 1 }]. *)
Definition push_item (item : Item) (l : ListDoc) : ListDoc :=
  mkList (list_id l) (list_name l) (list_items l ++ [item])
    (N.succ (list_v l)).

(** ** Store operations, one per call of the source *)

Definition new_ObjectId : Store ObjectId :=
  fun db => (oid_text (next_oid db),
             mkDB (items db) (lists db) (N.succ (next_oid db))).

(** [new Item({ name })]: a document with a fresh [_id], not yet stored. *)
Definition new_Item (nm : string) : Store Item :=
  id <- new_ObjectId ;; ret (mkItem id nm).

(** [Item.find()] *)
Definition Item_find : Store (list Item) :=
  fun db => (items db, db).

(** [Item.insertMany(docs)] *)
Definition Item_insertMany (docs : list Item) : Store unit :=
  fun db => (tt, mkDB (items db ++ docs) (lists db) (next_oid db)).

(** [item.save()] on a new document. *)
Definition Item_save (item : Item) : Store unit :=
  Item_insertMany [item].

(** [Item.findByIdAndUpdate(id, { name }, { new: true })]; the text [id] is
    cast first. *)
Definition Item_findByIdAndUpdate (R : Runtime) (id : string) (nm : string)
  : Try (option Item) :=
  fun db =>
    match castObjectId R id with
    | None => (inl (CastError id), db)
    | Some oid =>
        (inr (option_map (set_item_name nm) (find (has_id oid) (items db))),
         mkDB (update_first (has_id oid) (set_item_name nm) (items db))
              (lists db) (next_oid db))
    end.

(** [Item.findByIdAndDelete(id)]; the text [id] is cast first. *)
Definition Item_findByIdAndDelete (R : Runtime) (id : string)
  : Try (option Item) :=
  fun db =>
    match castObjectId R id with
    | None => (inl (CastError id), db)
    | Some oid =>
        (inr (find (has_id oid) (items db)),
         mkDB (remove_first (has_id oid) (items db)) (lists db) (next_oid db))
    end.

(** [List.findOne({ name })] *)
Definition List_findOne (nm : string) : Store (option ListDoc) :=
  fun db => (find (has_name nm) (lists db), db).

(** [List.findOneAndUpdate({ name }, { $setOnInsert: { name, items } },
    { new: true, upsert: true })] *)
Definition List_findOneAndUpdate_upsert (nm : string) (its : list Item)
  : Store ListDoc :=
  fun db =>
    match find (has_name nm) (lists db) with
    | Some l => (l, db)
    | None =>
        let l := mkList (oid_text (next_oid db)) nm its 0 in
        (l, mkDB (items db) (lists db ++ [l]) (N.succ (next_oid db)))
    end.

(** [foundList.items.push(item); foundList.save()]: the push reaches the
    stored document of [foundList], whose version goes up by one. *)
Definition ListDoc_push_save (foundList : ListDoc) (item : Item) : Store unit :=
  fun db =>
    (tt,
     mkDB (items db)
          (update_first (fun l => list_id l =? list_id foundList)
             (push_item item) (lists db))
          (next_oid db)).

(** [List.findOneAndUpdate({ name, 'items._id': id },
    { $set: { 'items.$.name': nm } }, { new: true })]; the text [id] is
    cast first. *)
Definition List_findOneAndUpdate_set (R : Runtime) (name : string)
  (id : string) (nm : string) : Try (option ListDoc) :=
  fun db =>
    match castObjectId R id with
    | None => (inl (CastError id), db)
    | Some oid =>
        let q l := has_name name l && existsb (has_id oid) (list_items l) in
        let u :=
          set_list_items (update_first (has_id oid) (set_item_name nm)) in
        (inr (option_map u (find q (lists db))),
         mkDB (items db) (update_first q u (lists db)) (next_oid db))
    end.

(** [List.findOneAndUpdate({ name }, { $pull: { items: { _id: id } } })];
    the text [id] is cast first. *)
Definition List_findOneAndUpdate_pull (R : Runtime) (name : string)
  (id : string) : Try (option ListDoc) :=
  fun db =>
    match castObjectId R id with
    | None => (inl (CastError id), db)
    | Some oid =>
        (inr (find (has_name name) (lists db)),
         mkDB (items db)
              (update_first (has_name name)
                 (set_list_items (filter (fun it => negb (has_id oid it))))
                 (lists db))
              (next_oid db))
    end.

(** ** The seeder and the handlers *)

Definition createDefaultItems : Store (list Item) :=
  item1 <- new_Item "Welcome to your todolist!" ;;
  item2 <- new_Item "Hit the + to add a new item" ;;
  item3 <- new_Item "<-- Hit this to delete an item" ;;
  let defaultItems := [item1; item2; item3] in
  existingItems <- Item_find ;;
  (if Nat.eqb (List.length existingItems) 0
   then Item_insertMany defaultItems
   else ret tt) ;;;
  ret defaultItems.

(** [app.get('/')] *)
Definition get_root (today : string) : Store Response :=
  foundItems <- Item_find ;;
  if Nat.eqb (List.length foundItems) 0
  then createDefaultItems ;;; ret (redirect "/")
  else ret (render "list" today foundItems).

(** [app.get('/:customNewList')] *)
Definition get_customNewList (R : Runtime) (param : string) : Store Response :=
  let customNewList := capitalize R param in
  defaultItems <- createDefaultItems ;;
  foundList <- List_findOneAndUpdate_upsert customNewList defaultItems ;;
  ret (render "list" (list_name foundList) (list_items foundList)).

(** [app.post('/')] *)
Definition post_root (today : string) (newItem list : FormValue)
  : Store Response :=
  match checked_string newItem with
  | None => ret (status_send 400 "Item name must be a non-empty string")
  | Some itemName =>
      match checked_string list with
      | None => ret (status_send 400 "List name must be a non-empty string")
      | Some listName =>
          item <- new_Item itemName ;;
          if listName =? today
          then Item_save item ;;; ret (redirect "/")
          else
            foundList <- List_findOne listName ;;
            match foundList with
            | None => ret (status_send 400 "List not found!")
            | Some foundList =>
                ListDoc_push_save foundList item ;;;
                ret (redirect ("/" ++ listName))
            end
      end
  end.

(** [app.post('/edit')] *)
Definition post_edit (R : Runtime) (today : string)
  (updatedItemId updatedItemTitle : option string) (customeListName : string)
  : Store Response :=
  if falsy updatedItemId || falsy updatedItemTitle
  then ret (status_send 400 "Missing updated item ID or title")
  else
    match updatedItemId, updatedItemTitle with
    | Some id, Some newInput =>
        let listName := customeListName in
        try_catch
          (if listName =? today
           then Item_findByIdAndUpdate R id newInput ;;?
                try_ret (redirect "/")
           else List_findOneAndUpdate_set R listName id newInput ;;?
                try_ret (redirect ("/" ++ listName)))
          (fun error => ret (status_send 500 "Failed to edit item"))
    | _, _ => ret (status_send 400 "Missing updated item ID or title")
    end.

(** [app.post('/delete')] *)
Definition post_delete (R : Runtime) (today : string)
  (listName checkbox : string) : Store Response :=
  let checkedListName := listName in
  let checkedItemId := checkbox in
  if checkedListName =? today
  then
    try_catch
      (Item_findByIdAndDelete R checkedItemId ;;? try_ret (redirect "/"))
      (fun error => ret (status_send 500 "Error deleting item!"))
  else
    try_catch
      (List_findOneAndUpdate_pull R checkedListName checkedItemId ;;?
       try_ret (redirect ("/" ++ checkedListName)))
      (fun err => ret (status_send 500 "Error deleting item from list!")).

(** ** Requests and reachable states *)

Inductive Request : Type :=
| GET_root
| GET_customNewList (customNewList : string)
| POST_root (newItem list : FormValue)
| POST_edit (updatedItemId updatedItemTitle : option string)
            (customeListName : string)
| POST_delete (listName checkbox : string).

Definition handle (R : Runtime) (today : string) (req : Request)
  : Store Response :=
  match req with
  | GET_root => get_root today
  | GET_customNewList p => get_customNewList R p
  | POST_root i l => post_root today i l
  | POST_edit i t l => post_edit R today i t l
  | POST_delete l c => post_delete R today l c
  end.

(** Start-up runs the seeder once before the server listens. *)
Definition startup : Store unit := createDefaultItems ;;; ret tt.

(** The states the server can be in: the store starts empty, the process
    starts (and may start again), and requests are handled one after the
    other, each at its own time. *)
Inductive reachable (R : Runtime) : DB -> Prop :=
| reachable_empty : reachable R empty_db
| reachable_startup db : reachable R db -> reachable R (snd (startup db))
| reachable_handle db now req :
    reachable R db -> reachable R (snd (handle R (getLocalDate now) req db)).

(** ** A sample runtime

    It knows the case of the ASCII letters and that the upper case of
    U+00DF (sharp s) is "SS", takes a character for a symbol, and casts the
    decimal numerals, which is how [oid_text] writes identifiers.  Every
    other character keeps its case, so it stands for the language on texts
    made of ASCII characters and U+00DF, and is run on such texts only. *)

Fixpoint sample_toUpperCase (s : string) : string :=
  match s with
  | EmptyString => EmptyString
  | String c1 r1 =>
      match r1 with
      | String c2 r2 =>
          if (code c1 =? 195)%N && (code c2 =? 159)%N
          then String "S" (String "S" (sample_toUpperCase r2))
          else String (to_upper c1) (sample_toUpperCase r1)
      | EmptyString => String (to_upper c1) EmptyString
      end
  end.

Definition sample_castObjectId (s : string) : option ObjectId :=
  if s =? "" then None
  else option_map (fun d => oid_text (N.of_uint d))
         (NilEmpty.uint_of_string s).

Definition sample_runtime : Runtime :=
  mkRuntime ascii_toLowerCase sample_toUpperCase first_char
    sample_castObjectId.

(** U+00DF followed by "a". *)
Definition sharp_s_a : string := utf8 [195; 159; 97]%N.

(** U+00A0, the no-break space. *)
Definition nbsp : string := utf8 [194; 160]%N.

(** ** Vocabulary of the properties *)

(** The three placeholder texts of the seeder. *)
Definition placeholders : list string :=
  [ "Welcome to your todolist!";
    "Hit the + to add a new item";
    "<-- Hit this to delete an item" ].

(** White space only (the empty string included). *)
Definition all_space (s : string) : bool := forallb is_space (chars s).

(** A field that is missing, not a string, or blank. *)
Definition missing_or_blank (v : FormValue) : Prop :=
  match v with
  | VUndefined | VOther => True
  | VString s => all_space s = true
  end.

(** A field that holds the non-blank string [s]. *)
Definition non_blank (v : FormValue) (s : string) : Prop :=
  v = VString s /\ all_space s = false.

(** Two texts that are equal up to the case of their letters, and not
    equal. *)
Definition differs_in_case (R : Runtime) (a b : string) : Prop :=
  toLowerCase R a = toLowerCase R b /\ a <> b.

(** On texts without characters beyond ASCII the runtime maps the case of
    the ASCII letters and cuts off the first character. *)
Definition ascii_case (R : Runtime) : Prop :=
  forall s, is_ascii s = true ->
    toLowerCase R s = ascii_toLowerCase s /\
    toUpperCase R s = ascii_toUpperCase s /\
    splitFirst R s = ascii_splitFirst s.

(** [_.capitalize] on a text without characters beyond ASCII: the rest in
    lower case, the first character in upper case. *)
Definition ascii_capitalize (s : string) : string :=
  match ascii_toLowerCase s with
  | EmptyString => EmptyString
  | String c r => String (to_upper c) r
  end.

(** No upper case ASCII letter, and no lower case ASCII letter, in a
    text. *)
Definition no_upper (s : string) : bool :=
  all_bytes (fun c => negb (is_upper c)) s.

Definition no_lower (s : string) : bool :=
  all_bytes (fun c => negb (is_lower c)) s.

(** The symbol and the rest that lodash cuts make up the text; a text in
    lower case holds no upper case ASCII letter, and a text in upper case
    no lower case one. *)
Definition case_facts (R : Runtime) : Prop :=
  (forall s, let (chr, trailing) := splitFirst R s in chr ++ trailing = s) /\
  (forall s, no_upper (toLowerCase R s) = true) /\
  (forall s, no_lower (toUpperCase R s) = true).

(** At most one List document per name. *)
Definition unique_names (db : DB) : Prop :=
  NoDup (map list_name (lists db)).

Definition count_named (nm : string) (db : DB) : nat :=
  List.length (filter (fun l => list_name l =? nm) (lists db)).

(** Every stored list name is the normal form of some text. *)
Definition names_capitalized (R : Runtime) (db : DB) : Prop :=
  Forall (fun l => exists p, list_name l = capitalize R p) (lists db).

(** The [_id] index of the Item collection: no identifier twice. *)
Definition unique_item_ids (db : DB) : Prop :=
  NoDup (map item_id (items db)).

(** Every identifier of the Item collection was drawn from the counter, and
    none twice. *)
Definition drawn_below (n : N) (i : ObjectId) : Prop :=
  exists k, (k < n)%N /\ i = oid_text k.

Definition item_ids_fresh (db : DB) : Prop :=
  NoDup (map item_id (items db)) /\
  Forall (drawn_below (next_oid db)) (map item_id (items db)).

(** The embedded array of [l] holds no identifier twice, and only
    identifiers drawn from the counter below [n]. *)
Definition embedded_fresh (n : N) (l : ListDoc) : Prop :=
  NoDup (map item_id (list_items l)) /\
  Forall (drawn_below n) (map item_id (list_items l)).

(** No two List documents share an identifier, every identifier of a
    document was drawn from the counter, and so was every embedded one. *)
Definition list_ids_fresh (db : DB) : Prop :=
  NoDup (map list_id (lists db)) /\
  Forall (drawn_below (next_oid db)) (map list_id (lists db)) /\
  Forall (embedded_fresh (next_oid db)) (lists db).

(** [renamed id nm its its']: [its'] is [its] except that the first item
    whose identifier is [id] now has the name [nm]. *)
Inductive renamed (id : ObjectId) (nm : string)
  : list Item -> list Item -> Prop :=
| renamed_at l1 it l2 :
    item_id it = id ->
    (forall x, In x l1 -> item_id x <> id) ->
    renamed id nm (l1 ++ it :: l2) (l1 ++ mkItem id nm :: l2).

(** [renamed_in name id nm ls ls']: [ls'] is [ls] except that in the first
    document that is named [name] and embeds an item with the identifier
    [id], the first such item is renamed. *)
Inductive renamed_in (name : string) (id : ObjectId) (nm : string)
  : list ListDoc -> list ListDoc -> Prop :=
| renamed_in_at L1 l L2 its' :
    list_name l = name ->
    (forall x, In x L1 -> list_name x = name ->
               ~ In id (map item_id (list_items x))) ->
    renamed id nm (list_items l) its' ->
    renamed_in name id nm
      (L1 ++ l :: L2)
      (L1 ++ mkList (list_id l) (list_name l) its' (list_v l) :: L2).

(** The items of the list a handler targets under the name [listName]:
    the Item collection for today's date string, the embedded array of the
    first List document of exactly that name otherwise. *)
Definition targeted (today listName : string) (db : DB) : option (list Item) :=
  if listName =? today
  then Some (items db)
  else option_map list_items
         (find (fun l => list_name l =? listName) (lists db)).

Definition is_redirect (r : Response) : bool :=
  match r with
  | redirect _ => true
  | _ => false
  end.

Definition is_client_error (r : Response) : bool :=
  match r with
  | status_send code _ => (400 <=? code)%N && (code <? 500)%N
  | _ => false
  end.

(** [l'] is [l] with something added at its end. *)
Definition prefix_of {A : Type} (l l' : list A) : Prop :=
  exists tail, l' = (l ++ tail)%list.

(** [bumped_in name ls ls']: [ls'] is [ls] except that the version of the
    first document named [name] is one higher. *)
Inductive bumped_in (name : string)
  : list ListDoc -> list ListDoc -> Prop :=
| bumped_in_at L1 l L2 :
    list_name l = name ->
    (forall x, In x L1 -> list_name x <> name) ->
    bumped_in name
      (L1 ++ l :: L2)
      (L1 ++ mkList (list_id l) (list_name l) (list_items l)
               (N.succ (list_v l)) :: L2).

(** The same document as [l], with its array possibly longer. *)
Definition grown (l l' : ListDoc) : Prop :=
  list_id l' = list_id l /\ list_name l' = list_name l /\
  prefix_of (list_items l) (list_items l').

(** * Properties *)

Local Open Scope list_scope.

(** ** The model at work *)

Example capitalize_examples :
  capitalize sample_runtime "foo" = "Foo" /\
  capitalize sample_runtime "Foo" = "Foo" /\
  capitalize sample_runtime "fOO bAR" = "Foo bar" /\
  capitalize sample_runtime "" = "" /\
  capitalize sample_runtime sharp_s_a = "SSa" /\
  capitalize sample_runtime "SSa" = "Ssa".
Proof. repeat split. Qed.

Example trim_examples :
  trim "  a b  " = "a b" /\ trim "   " = "" /\
  trim (nbsp ++ "a" ++ nbsp)%string = "a" /\
  checked_string (VString "   ") = None /\
  checked_string (VString nbsp) = None /\
  checked_string (VString " x ") = Some " x ".
Proof. repeat split. Qed.

Example getLocalDate_example :
  getLocalDate (mkClock Monday January 1) = "Monday, January 1".
Proof. reflexivity. Qed.

Example first_visit_creates_the_list :
  get_customNewList sample_runtime "foo" empty_db =
  let seed :=
    [ mkItem "0" "Welcome to your todolist!";
      mkItem "1" "Hit the + to add a new item";
      mkItem "2" "<-- Hit this to delete an item" ] in
  (render "list" "Foo" seed, mkDB seed [mkList "3" "Foo" seed 0] 4).
Proof. reflexivity. Qed.

Example add_to_stored_list :
  let today := getLocalDate (mkClock Monday January 1) in
  let db := snd (get_customNewList sample_runtime "foo" empty_db) in
  fst (post_root today (VString "Buy milk") (VString "Foo") db)
  = redirect "/Foo" /\
  fst (List_findOne "Foo"
         (snd (post_root today (VString "Buy milk") (VString "Foo") db)))
  = Some (mkList "3" "Foo"
            (fst (createDefaultItems empty_db) ++ [mkItem "4" "Buy milk"])
            1).
Proof. split; reflexivity. Qed.

Example malformed_identifier_is_caught :
  let today := getLocalDate (mkClock Monday January 1) in
  let db := snd (get_customNewList sample_runtime "foo" empty_db) in
  post_edit sample_runtime today (Some "not-an-id") (Some "Call home") "Foo" db
  = (status_send 500 "Failed to edit item", db) /\
  post_delete sample_runtime today today "not-an-id" db
  = (status_send 500 "Error deleting item!", db) /\
  post_delete sample_runtime today "Foo" "not-an-id" db
  = (status_send 500 "Error deleting item from list!", db).
Proof. repeat split. Qed.

(** ** Characters and strings *)

Ltac each_ascii c := destruct c as [[] [] [] [] [] [] [] []].

Lemma to_upper_not_lower (c : ascii) : is_lower (to_upper c) = false.
Proof. each_ascii c; reflexivity. Qed.

Lemma to_lower_not_upper (c : ascii) : is_upper (to_lower c) = false.
Proof. each_ascii c; reflexivity. Qed.

Lemma to_upper_lower (c : ascii) : to_upper (to_lower c) = to_upper c.
Proof. each_ascii c; reflexivity. Qed.

Lemma to_lower_ascii (c : ascii) :
  (code c <? 128)%N = true -> (code (to_lower c) <? 128)%N = true.
Proof. each_ascii c; intros H; try discriminate H; reflexivity. Qed.

Lemma ascii_below_192 (c : ascii) :
  (code c <? 128)%N = true -> (code c <? 192)%N = true.
Proof. rewrite !N.ltb_lt. lia. Qed.

Lemma ascii_not_195 (c : ascii) :
  (code c <? 128)%N = true -> (code c =? 195)%N = false.
Proof. rewrite N.ltb_lt, N.eqb_neq. lia. Qed.

Lemma ascii_toLowerCase_is_ascii (s : string) :
  is_ascii s = true -> is_ascii (ascii_toLowerCase s) = true.
Proof.
  induction s as [|c r IH]; simpl; [reflexivity|].
  intros [Hc Hr]%andb_prop. apply andb_true_intro.
  split; [now apply to_lower_ascii | now apply IH].
Qed.

(** The normal form depends on the text up to case only. *)
Lemma capitalize_case_insensitive (R : Runtime) (a b : string) :
  toLowerCase R a = toLowerCase R b -> capitalize R a = capitalize R b.
Proof. unfold capitalize. now intros ->. Qed.

(** On ASCII texts [_.capitalize] is what one expects. *)
Lemma capitalize_ascii (R : Runtime) (s : string) :
  ascii_case R -> is_ascii s = true -> capitalize R s = ascii_capitalize s.
Proof.
  intros HR Hs. unfold capitalize, upperFirst, ascii_capitalize.
  destruct (HR s Hs) as (-> & _ & _).
  pose proof (ascii_toLowerCase_is_ascii s Hs) as Hl.
  destruct (HR _ Hl) as (_ & _ & ->).
  destruct (ascii_toLowerCase s) as [|c r]; simpl.
  - now destruct (HR "" eq_refl) as (_ & -> & _).
  - unfold is_ascii in Hl. cbn [all_bytes] in Hl.
    apply andb_prop in Hl as [Hc _].
    assert (H1 : is_ascii (String c "") = true)
      by (unfold is_ascii; cbn [all_bytes]; now rewrite Hc).
    now destruct (HR _ H1) as (_ & -> & _).
Qed.

(** *** The characters of a text *)

Lemma chars_non_empty_bound (n : nat) (s : string) :
  String.length s <= n -> Forall (fun ch => ch <> "") (chars s).
Proof.
  revert s. induction n as [|n IH]; intros s H.
  - destruct s; [constructor | simpl in H; lia].
  - destruct s as [|c1 r1]; [constructor|]. simpl in H. cbn [chars].
    destruct (code c1 <? 192)%N.
    { constructor; [discriminate | apply IH; lia]. }
    destruct r1 as [|c2 r2]; [repeat constructor; discriminate|].
    simpl in H. destruct (code c1 <? 224)%N.
    { constructor; [discriminate | apply IH; lia]. }
    destruct r2 as [|c3 r3]; [repeat constructor; discriminate|].
    simpl in H. destruct (code c1 <? 240)%N.
    { constructor; [discriminate | apply IH; lia]. }
    destruct r3 as [|c4 r4]; [repeat constructor; discriminate|].
    simpl in H. constructor; [discriminate | apply IH; lia].
Qed.

Lemma chars_non_empty (s : string) : Forall (fun ch => ch <> "") (chars s).
Proof. now apply (chars_non_empty_bound (String.length s)). Qed.

Lemma join_empty (l : list string) :
  Forall (fun ch => ch <> "") l -> join l = "" -> l = [].
Proof.
  destruct l as [|x r]; [reflexivity|]. simpl.
  intros H E. inversion H as [|? ? Hx _]; subst.
  destruct x; [contradiction | discriminate E].
Qed.

Section DropWhile.
Context {A : Type}.
Implicit Types (p : A -> bool) (l : list A).

Lemma dropWhile_nil p l : dropWhile p l = [] <-> forallb p l = true.
Proof.
  induction l as [|x r IH]; simpl; [tauto|].
  destruct (p x); simpl; [exact IH|]. split; discriminate.
Qed.

Lemma dropWhile_forallb p l : forallb p (dropWhile p l) = forallb p l.
Proof.
  induction l as [|x r IH]; simpl; [reflexivity|].
  destruct (p x) eqn:E; simpl; [exact IH | now rewrite E].
Qed.

Lemma Forall_dropWhile (P : A -> Prop) p l :
  Forall P l -> Forall P (dropWhile p l).
Proof.
  induction 1 as [|x r Hx Hr IH]; simpl; [constructor|].
  destruct (p x); [exact IH | now constructor].
Qed.

Lemma forallb_rev p l : forallb p (rev l) = forallb p l.
Proof.
  induction l as [|x r IH]; simpl; [reflexivity|].
  rewrite forallb_app, IH. simpl. rewrite andb_true_r. apply andb_comm.
Qed.

End DropWhile.

Lemma trim_empty (s : string) : trim s = "" <-> all_space s = true.
Proof.
  unfold trim, all_space.
  set (cs := chars s).
  assert (Hne : Forall (fun ch => ch <> "") cs) by apply chars_non_empty.
  split.
  - intros E. apply join_empty in E.
    + apply (f_equal (@rev string)) in E. rewrite rev_involutive in E.
      simpl in E. apply dropWhile_nil in E.
      now rewrite forallb_rev, dropWhile_forallb in E.
    + apply Forall_rev, Forall_dropWhile, Forall_rev, Forall_dropWhile, Hne.
  - intros E.
    assert (D : dropWhile is_space cs = []) by now apply dropWhile_nil.
    now rewrite D.
Qed.

(** [s.trim().length === 0] exactly when [s] is white space only. *)
Lemma trim_length_zero (s : string) :
  Nat.eqb (String.length (trim s)) 0 = all_space s.
Proof.
  destruct (all_space s) eqn:E.
  - apply trim_empty in E. now rewrite E.
  - destruct (trim s) as [|c r] eqn:T; [|reflexivity].
    apply trim_empty in T. congruence.
Qed.

Lemma checked_string_spec (v : FormValue) :
  match checked_string v with
  | None => missing_or_blank v
  | Some s => non_blank v s
  end.
Proof.
  destruct v as [|s|]; simpl; trivial.
  rewrite trim_length_zero.
  destruct (String.eqb_spec s "") as [->|Hs]; simpl; [reflexivity|].
  destruct (all_space s) eqn:E; simpl; [reflexivity|].
  now split.
Qed.

Lemma checked_string_blank (v : FormValue) :
  missing_or_blank v -> checked_string v = None.
Proof.
  destruct v as [|s|]; simpl; trivial.
  intros H. rewrite trim_length_zero, H. now rewrite orb_true_r.
Qed.

Lemma checked_string_non_blank (v : FormValue) (s : string) :
  non_blank v s -> checked_string v = Some s.
Proof.
  intros [-> H]. simpl. rewrite trim_length_zero, H.
  destruct (String.eqb_spec s "") as [->|_]; [discriminate H | reflexivity].
Qed.

(** The date string always passes the guard of the add handler. *)
Lemma getLocalDate_non_blank (now : Clock) :
  non_blank (VString (getLocalDate now)) (getLocalDate now).
Proof.
  split; [reflexivity|].
  unfold getLocalDate, all_space. destruct (weekday now); reflexivity.
Qed.

Lemma oid_text_inj (m n : N) : oid_text m = oid_text n -> m = n.
Proof.
  unfold oid_text, numeric. intros H.
  apply Unsigned.to_uint_inj.
  assert (E : Some (N.to_uint m) = Some (N.to_uint n))
    by now rewrite <- !NilEmpty.usu, H.
  now injection E.
Qed.

(** *** The sample runtime is a runtime *)

Lemma sample_toUpperCase_ascii (s : string) :
  is_ascii s = true -> sample_toUpperCase s = ascii_toUpperCase s.
Proof.
  induction s as [|c1 r1 IH]; [reflexivity|].
  intros H. simpl in H. apply andb_prop in H as [Hc Hr].
  cbn [sample_toUpperCase ascii_toUpperCase].
  destruct r1 as [|c2 r2]; [reflexivity|].
  rewrite (ascii_not_195 c1 Hc). simpl andb. cbv iota.
  now rewrite (IH Hr).
Qed.

Lemma sample_ascii_case : ascii_case sample_runtime.
Proof.
  intros s H. simpl. repeat split.
  - now apply sample_toUpperCase_ascii.
  - destruct s as [|c r]; [reflexivity|]. simpl in *.
    apply andb_prop in H as [Hc _]. now rewrite (ascii_below_192 c Hc).
Qed.

Lemma first_char_parts (s : string) :
  let (chr, trailing) := first_char s in (chr ++ trailing)%string = s.
Proof.
  destruct s as [|c1 [|c2 [|c3 [|c4 r]]]]; simpl;
    repeat match goal with
           | |- context [if ?b then _ else _] => destruct b
           end; reflexivity.
Qed.

Lemma ascii_toLowerCase_no_upper (s : string) :
  no_upper (ascii_toLowerCase s) = true.
Proof.
  induction s as [|c r IH]; [reflexivity|].
  unfold no_upper in *. cbn [ascii_toLowerCase all_bytes].
  rewrite to_lower_not_upper. exact IH.
Qed.

Lemma sample_toUpperCase_no_lower_bound (n : nat) (s : string) :
  String.length s <= n -> no_lower (sample_toUpperCase s) = true.
Proof.
  revert s. induction n as [|n IH]; intros s H.
  - destruct s; [reflexivity | simpl in H; lia].
  - destruct s as [|c1 r1]; [reflexivity|]. simpl in H.
    cbn [sample_toUpperCase].
    destruct r1 as [|c2 r2].
    + unfold no_lower. cbn [all_bytes]. now rewrite to_upper_not_lower.
    + simpl in H.
      destruct ((code c1 =? 195)%N && (code c2 =? 159)%N).
      * change (no_lower (sample_toUpperCase r2) = true). apply IH. lia.
      * unfold no_lower. cbn [all_bytes]. rewrite to_upper_not_lower.
        apply (IH (String c2 r2)). simpl. lia.
Qed.

Lemma sample_case_facts : case_facts sample_runtime.
Proof.
  repeat split; simpl.
  - apply first_char_parts.
  - apply ascii_toLowerCase_no_upper.
  - intros s. now apply (sample_toUpperCase_no_lower_bound (String.length s)).
Qed.

(** ** Lists under the update operators *)

Section HelperFacts.
Context {A : Type}.
Implicit Types (p q : A -> bool) (f g : A -> A) (l : list A).

Lemma find_existsb p l :
  existsb p l = match find p l with Some _ => true | None => false end.
Proof.
  induction l as [|x r IH]; simpl; [reflexivity|].
  destruct (p x); simpl; [reflexivity | exact IH].
Qed.

Lemma existsb_false_forall p l :
  existsb p l = false <-> forall x, In x l -> p x = false.
Proof.
  induction l as [|y r IH]; simpl.
  - split; [intros _ x [] | reflexivity].
  - rewrite orb_false_iff, IH. split.
    + intros [Hy Hr] x [<-|Hx]; auto.
    + intros H. split; [apply H; now left | intros x Hx; apply H; now right].
Qed.

Lemma update_first_miss p f l :
  existsb p l = false -> update_first p f l = l.
Proof.
  induction l as [|x r IH]; simpl; [reflexivity|].
  destruct (p x); simpl; [discriminate|].
  intros H. now rewrite IH.
Qed.

Lemma remove_first_miss p l :
  existsb p l = false -> remove_first p l = l.
Proof.
  induction l as [|x r IH]; simpl; [reflexivity|].
  destruct (p x); simpl; [discriminate|].
  intros H. now rewrite IH.
Qed.

(** Where the first match is. *)
Lemma first_match p l :
  existsb p l = true ->
  exists l1 x l2,
    l = l1 ++ x :: l2 /\ p x = true /\ existsb p l1 = false /\
    find p l = Some x /\
    (forall f, update_first p f l = l1 ++ f x :: l2) /\
    remove_first p l = l1 ++ l2.
Proof.
  induction l as [|y r IH]; simpl; [discriminate|].
  destruct (p y) eqn:E; simpl.
  - intros _. exists [], y, r. simpl. now rewrite ?E.
  - intros H. destruct (IH H) as (l1 & x & l2 & -> & Hx & H1 & Hf & Hu & Hr).
    exists (y :: l1), x, l2. simpl. rewrite E, Hr.
    repeat split; trivial.
    intros f. now rewrite Hu.
Qed.

Lemma find_app_miss p l x :
  find p l = None -> p x = true -> find p (l ++ [x]) = Some x.
Proof.
  induction l as [|y r IH]; simpl; intros H Hx; [now rewrite Hx|].
  destruct (p y); [discriminate | now apply IH].
Qed.

Lemma find_at p l1 x l2 :
  existsb p l1 = false -> p x = true -> find p (l1 ++ x :: l2) = Some x.
Proof.
  induction l1 as [|y r IH]; simpl; intros H Hx; [now rewrite Hx|].
  destruct (p y); simpl in H; [discriminate | now apply IH].
Qed.

Lemma update_first_at p f l1 x l2 :
  existsb p l1 = false -> p x = true ->
  update_first p f (l1 ++ x :: l2) = l1 ++ f x :: l2.
Proof.
  induction l1 as [|y r IH]; simpl; intros H Hx; [now rewrite Hx|].
  destruct (p y); simpl in H; [discriminate|]. now rewrite IH.
Qed.

Lemma remove_first_at p l1 x l2 :
  existsb p l1 = false -> p x = true ->
  remove_first p (l1 ++ x :: l2) = l1 ++ l2.
Proof.
  induction l1 as [|y r IH]; simpl; intros H Hx; [now rewrite Hx|].
  destruct (p y); simpl in H; [discriminate|]. now rewrite IH.
Qed.

Lemma map_update_first {B} (h : A -> B) p f l :
  (forall x, h (f x) = h x) -> map h (update_first p f l) = map h l.
Proof.
  intros Hg. induction l as [|x r IH]; simpl; [reflexivity|].
  destruct (p x); simpl; [now rewrite Hg | now rewrite IH].
Qed.

Lemma find_update_first p f l :
  (forall x, p (f x) = p x) ->
  find p (update_first p f l) = option_map f (find p l).
Proof.
  intros Hp. induction l as [|x r IH]; simpl; [reflexivity|].
  destruct (p x) eqn:E; simpl.
  - now rewrite Hp, E.
  - now rewrite E.
Qed.

Lemma update_first_twice p f g l :
  (forall x, p (f x) = p x) ->
  update_first p g (update_first p f l) = update_first p (fun x => g (f x)) l.
Proof.
  intros Hp. induction l as [|x r IH]; simpl; [reflexivity|].
  destruct (p x) eqn:E; simpl.
  - now rewrite Hp, E.
  - now rewrite E, IH.
Qed.

Lemma update_first_ext p f g l :
  (forall x, f x = g x) -> update_first p f l = update_first p g l.
Proof.
  intros H. induction l as [|x r IH]; simpl; [reflexivity|].
  destruct (p x); [now rewrite H | now rewrite IH].
Qed.

Lemma Forall_update_first (P : A -> Prop) p f l :
  (forall x, P x -> P (f x)) -> Forall P l -> Forall P (update_first p f l).
Proof.
  intros Hf. induction 1 as [|x r Hx Hr IH]; simpl; [constructor|].
  destruct (p x); constructor; auto.
Qed.

Lemma Forall2_update_first (Q : A -> A -> Prop) p f l :
  (forall x, Q x x) -> (forall x, Q x (f x)) ->
  Forall2 Q l (update_first p f l).
Proof.
  intros Hr Hf. induction l as [|x r IH]; simpl; [constructor|].
  destruct (p x); constructor; auto.
  clear IH. induction r; constructor; auto.
Qed.

Lemma filter_miss p l :
  existsb p l = false -> filter (fun x => negb (p x)) l = l.
Proof.
  induction l as [|x r IH]; simpl; [reflexivity|].
  destruct (p x); simpl; [discriminate|].
  intros H. now rewrite IH.
Qed.

Lemma existsb_filter_negb p l :
  existsb p (filter (fun x => negb (p x)) l) = false.
Proof.
  induction l as [|x r IH]; simpl; [reflexivity|].
  destruct (p x) eqn:E; simpl; [exact IH | now rewrite E].
Qed.

Lemma filter_idem p l : filter p (filter p l) = filter p l.
Proof.
  induction l as [|x r IH]; simpl; [reflexivity|].
  destruct (p x) eqn:E; simpl; [now rewrite E, IH | exact IH].
Qed.

End HelperFacts.

(** *** What the two matching predicates decide *)

Lemma has_id_true (id : ObjectId) (it : Item) :
  has_id id it = true <-> item_id it = id.
Proof. unfold has_id. apply String.eqb_eq. Qed.

Lemma has_name_true (nm : string) (l : ListDoc) :
  has_name nm l = true <-> list_name l = nm.
Proof. unfold has_name. apply String.eqb_eq. Qed.

Lemma existsb_has_id (id : ObjectId) (l : list Item) :
  existsb (has_id id) l = true <-> In id (map item_id l).
Proof.
  rewrite existsb_exists, in_map_iff.
  split; intros (x & H1 & H2).
  - exists x. split; [now apply has_id_true | exact H1].
  - exists x. split; [exact H2 | now apply has_id_true].
Qed.

Lemma no_has_id (id : ObjectId) (l : list Item) :
  existsb (has_id id) l = false <-> ~ In id (map item_id l).
Proof.
  rewrite <- existsb_has_id. destruct (existsb (has_id id) l);
    split; congruence.
Qed.

Lemma no_has_id_forall (id : ObjectId) (l : list Item) :
  existsb (has_id id) l = false -> forall x, In x l -> item_id x <> id.
Proof.
  intros H x Hx E. apply no_has_id in H. apply H. rewrite <- E.
  now apply in_map.
Qed.

Lemma no_has_name (nm : string) (ls : list ListDoc) :
  existsb (has_name nm) ls = false <->
  forall x, In x ls -> list_name x <> nm.
Proof.
  rewrite existsb_false_forall. split; intros H x Hx.
  - intros E. apply has_name_true in E. specialize (H x Hx). congruence.
  - destruct (has_name nm x) eqn:E; [|reflexivity].
    apply has_name_true in E. now apply H in E.
Qed.

(** A look-up by name finds the first document of that name. *)
Lemma find_has_name_some (nm : string) (ls : list ListDoc) (l : ListDoc) :
  find (has_name nm) ls = Some l ->
  exists L1 L2,
    ls = L1 ++ l :: L2 /\ list_name l = nm /\
    existsb (has_name nm) L1 = false /\
    (forall x, In x L1 -> list_name x <> nm).
Proof.
  intros H.
  assert (E : existsb (has_name nm) ls = true) by now rewrite find_existsb, H.
  destruct (first_match _ _ E) as (L1 & x & L2 & -> & Hx & H1 & Hf & _).
  rewrite H in Hf. injection Hf as <-.
  exists L1, L2. repeat split; trivial.
  - now apply has_name_true.
  - now apply no_has_name.
Qed.

Lemma find_has_name_none (nm : string) (ls : list ListDoc) :
  find (has_name nm) ls = None <->
  forall x, In x ls -> list_name x <> nm.
Proof.
  rewrite <- no_has_name, find_existsb.
  destruct (find (has_name nm) ls); split; congruence.
Qed.

Lemma find_first_named (nm : string) (L1 : list ListDoc) (l : ListDoc)
  (L2 : list ListDoc) :
  list_name l = nm ->
  (forall x, In x L1 -> list_name x <> nm) ->
  find (has_name nm) (L1 ++ l :: L2) = Some l.
Proof.
  intros Hn H1. apply find_at; [now apply no_has_name|].
  now apply has_name_true.
Qed.

(** With no identifier twice, dropping the first match drops every match. *)
Lemma remove_first_filter (id : ObjectId) (l : list Item) :
  NoDup (map item_id l) ->
  remove_first (has_id id) l = filter (fun it => negb (has_id id it)) l.
Proof.
  induction l as [|x r IH]; simpl; [reflexivity|].
  intros H. inversion H as [|? ? Hx Hr]; subst.
  destruct (has_id id x) eqn:E; simpl.
  - symmetry. apply filter_miss. apply no_has_id.
    apply has_id_true in E. congruence.
  - now rewrite IH.
Qed.

Lemma filter_item_ids (P : ObjectId -> Prop) (p : Item -> bool)
  (its : list Item) :
  NoDup (map item_id its) /\ Forall P (map item_id its) ->
  NoDup (map item_id (filter p its)) /\ Forall P (map item_id (filter p its)).
Proof.
  induction its as [|x r IH]; simpl; [auto|].
  intros [H1 H2]. inversion H1 as [|? ? Hx Hr]; subst.
  inversion H2 as [|? ? Px Pr]; subst.
  destruct (IH (conj Hr Pr)) as [I1 I2].
  destruct (p x); simpl; [|auto].
  split; constructor; auto.
  intros Hin. apply Hx. apply in_map_iff in Hin as (y & Hy & Hin).
  apply filter_In in Hin as [Hin _]. rewrite <- Hy. now apply in_map.
Qed.

(** ** The seeder *)

Ltac run_store :=
  unfold get_root, get_customNewList, post_root, post_edit, post_delete,
    startup, createDefaultItems, new_Item, new_ObjectId, Item_save,
    Item_insertMany, Item_find, Item_findByIdAndUpdate,
    Item_findByIdAndDelete, List_findOne, List_findOneAndUpdate_upsert,
    List_findOneAndUpdate_set, List_findOneAndUpdate_pull,
    ListDoc_push_save, try_catch, try_bind, try_ret, throw, bind, ret in *;
  simpl in *.

Lemma createDefaultItems_run (db : DB) :
  createDefaultItems db =
  let defaultItems :=
    [ mkItem (oid_text (next_oid db)) "Welcome to your todolist!";
      mkItem (oid_text (N.succ (next_oid db))) "Hit the + to add a new item";
      mkItem (oid_text (N.succ (N.succ (next_oid db))))
        "<-- Hit this to delete an item" ] in
  (defaultItems,
   mkDB (items db ++ if Nat.eqb (List.length (items db)) 0
                     then defaultItems else [])
        (lists db) (N.succ (N.succ (N.succ (next_oid db))))).
Proof.
  run_store. destruct (items db) as [|x r]; simpl; [reflexivity|].
  now rewrite app_nil_r.
Qed.

(** C2.  Whatever the store holds, the seeder returns three items named by
    the three fixed placeholder texts; it appends exactly these three to the
    Item collection when that collection is empty and writes nothing
    otherwise; it never touches the List collection; and a second run right
    after the first leaves the Item collection as the first left it. *)
Theorem createDefaultItems_seeds_once (db : DB) :
  let (defaultItems, db') := createDefaultItems db in
  map item_name defaultItems = placeholders /\
  items db' = items db ++ (if Nat.eqb (List.length (items db)) 0
                           then defaultItems else []) /\
  lists db' = lists db /\
  items (snd (createDefaultItems db')) = items db'.
Proof.
  rewrite createDefaultItems_run. cbv zeta.
  repeat split.
  rewrite createDefaultItems_run. simpl.
  destruct (items db) as [|x r]; simpl; now rewrite ?app_nil_r.
Qed.

(** ** The handlers, store call by store call *)

Lemma get_root_run (today : string) (db : DB) :
  get_root today db =
  if Nat.eqb (List.length (items db)) 0
  then (redirect "/", snd (createDefaultItems db))
  else (render "list" today (items db), db).
Proof.
  unfold get_root, bind, ret, Item_find.
  destruct (Nat.eqb (List.length (items db)) 0); [|reflexivity].
  now destruct (createDefaultItems db).
Qed.

Lemma get_customNewList_run (R : Runtime) (param : string) (db : DB) :
  get_customNewList R param db =
  let (defaultItems, db1) := createDefaultItems db in
  let (foundList, db2) :=
    List_findOneAndUpdate_upsert (capitalize R param) defaultItems db1 in
  (render "list" (list_name foundList) (list_items foundList), db2).
Proof.
  unfold get_customNewList, bind, ret.
  destruct (createDefaultItems db) as [d db1].
  now destruct (List_findOneAndUpdate_upsert (capitalize R param) d db1).
Qed.

Lemma post_root_run (today : string) (newItem list : FormValue) (db : DB) :
  post_root today newItem list db =
  match checked_string newItem with
  | None => (status_send 400 "Item name must be a non-empty string", db)
  | Some itemName =>
      match checked_string list with
      | None => (status_send 400 "List name must be a non-empty string", db)
      | Some listName =>
          let item := mkItem (oid_text (next_oid db)) itemName in
          let n := N.succ (next_oid db) in
          if listName =? today
          then (redirect "/", mkDB (items db ++ [item]) (lists db) n)
          else
            match find (has_name listName) (lists db) with
            | None =>
                (status_send 400 "List not found!",
                 mkDB (items db) (lists db) n)
            | Some foundList =>
                (redirect ("/" ++ listName)%string,
                 mkDB (items db)
                   (update_first (fun l => list_id l =? list_id foundList)
                      (push_item item) (lists db))
                   n)
            end
      end
  end.
Proof.
  unfold post_root.
  destruct (checked_string newItem) as [itemName|]; [|reflexivity].
  destruct (checked_string list) as [listName|]; [|reflexivity].
  run_store.
  destruct (listName =? today); [reflexivity|].
  cbn. now destruct (find (has_name listName) (lists db)).
Qed.

Lemma post_edit_run (R : Runtime) (today : string)
  (updatedItemId updatedItemTitle : option string)
  (customeListName : string) (db : DB) :
  post_edit R today updatedItemId updatedItemTitle customeListName db =
  match updatedItemId, updatedItemTitle with
  | Some id, Some newInput =>
      if (id =? "") || (newInput =? "")
      then (status_send 400 "Missing updated item ID or title", db)
      else
        match castObjectId R id with
        | None => (status_send 500 "Failed to edit item", db)
        | Some oid =>
            if customeListName =? today
            then (redirect "/",
                  mkDB (update_first (has_id oid) (set_item_name newInput)
                          (items db))
                    (lists db) (next_oid db))
            else (redirect ("/" ++ customeListName)%string,
                  mkDB (items db)
                    (update_first
                       (fun l => has_name customeListName l
                                 && existsb (has_id oid) (list_items l))
                       (set_list_items
                          (update_first (has_id oid)
                             (set_item_name newInput)))
                       (lists db))
                    (next_oid db))
        end
  | _, _ => (status_send 400 "Missing updated item ID or title", db)
  end.
Proof.
  unfold post_edit.
  destruct updatedItemId as [id|], updatedItemTitle as [newInput|]; simpl;
    try rewrite orb_true_r; try reflexivity.
  destruct ((id =? "") || (newInput =? "")); [reflexivity|].
  run_store.
  destruct (customeListName =? today);
    now destruct (castObjectId R id).
Qed.

Lemma post_delete_run (R : Runtime) (today listName checkbox : string)
  (db : DB) :
  post_delete R today listName checkbox db =
  match castObjectId R checkbox with
  | None =>
      (status_send 500
         (if listName =? today then "Error deleting item!"
          else "Error deleting item from list!"), db)
  | Some oid =>
      if listName =? today
      then (redirect "/",
            mkDB (remove_first (has_id oid) (items db)) (lists db)
              (next_oid db))
      else (redirect ("/" ++ listName)%string,
            mkDB (items db)
              (update_first (has_name listName)
                 (set_list_items (filter (fun it => negb (has_id oid it))))
                 (lists db))
              (next_oid db))
  end.
Proof.
  run_store.
  destruct (listName =? today); now destruct (castObjectId R checkbox).
Qed.

(** ** The custom list page: find or create *)

Lemma has_name_refl (id : ObjectId) (nm : string) (its : list Item) (v : N) :
  has_name nm (mkList id nm its v) = true.
Proof. unfold has_name. simpl. apply String.eqb_refl. Qed.

(** What the upsert does: the first document of that name if there is one,
    a new document at the end of the collection otherwise.  Either way the
    document it returns is the one a look-up by that name finds afterwards. *)
Lemma upsert_run (nm : string) (its : list Item) (db : DB) :
  let (doc, db') := List_findOneAndUpdate_upsert nm its db in
  items db' = items db /\
  find (has_name nm) (lists db') = Some doc /\
  match find (has_name nm) (lists db) with
  | Some l => doc = l /\ db' = db
  | None =>
      doc = mkList (oid_text (next_oid db)) nm its 0 /\
      lists db' = lists db ++ [doc]
  end.
Proof.
  unfold List_findOneAndUpdate_upsert.
  destruct (find (has_name nm) (lists db)) as [l|] eqn:E; simpl.
  - auto.
  - repeat split. apply find_app_miss; [exact E | apply has_name_refl].
Qed.

(** The page of a path whose normal form names a stored document. *)
Lemma get_customNewList_stored (R : Runtime) (p : string) (doc : ListDoc)
  (db : DB) :
  find (has_name (capitalize R p)) (lists db) = Some doc ->
  fst (get_customNewList R p db)
  = render "list" (list_name doc) (list_items doc) /\
  lists (snd (get_customNewList R p db)) = lists db.
Proof.
  intros H. rewrite get_customNewList_run, createDefaultItems_run.
  cbv beta iota zeta. unfold List_findOneAndUpdate_upsert. simpl.
  now rewrite H.
Qed.

(** Two paths with the same normal form reach the same document: the page
    for the second shows the document that the page for the first showed,
    and adds nothing to the List collection. *)
Lemma get_customNewList_same_document (R : Runtime) (p q : string) (db : DB) :
  capitalize R p = capitalize R q ->
  let (res1, db1) := get_customNewList R p db in
  let (res2, db2) := get_customNewList R q db1 in
  exists L1 doc L2,
    lists db1 = L1 ++ doc :: L2 /\
    list_name doc = capitalize R p /\
    (forall x, In x L1 -> list_name x <> capitalize R p) /\
    res1 = render "list" (list_name doc) (list_items doc) /\
    res2 = res1 /\
    lists db2 = lists db1.
Proof.
  intros Hpq. rewrite (get_customNewList_run R p db).
  rewrite (createDefaultItems_run db). cbv beta iota zeta.
  match goal with |- context [List_findOneAndUpdate_upsert ?n ?i ?d] =>
    pose proof (upsert_run n i d) as U;
    destruct (List_findOneAndUpdate_upsert n i d) as [doc db1] end.
  destruct U as (_ & Hfind & _).
  rewrite (get_customNewList_run R q db1).
  rewrite (createDefaultItems_run db1). cbv beta iota zeta.
  match goal with |- context [List_findOneAndUpdate_upsert ?n ?i ?d] =>
    pose proof (upsert_run n i d) as U;
    destruct (List_findOneAndUpdate_upsert n i d) as [doc2 db2] end.
  simpl in U. rewrite <- Hpq, Hfind in U.
  destruct U as (_ & Hfind2 & -> & ->).
  destruct (find_has_name_some _ _ _ Hfind) as (L1 & L2 & EL & Hn & _ & H1).
  exists L1, doc, L2. simpl. auto 7.
Qed.

(** C1.  The page of a custom list looks the List collection up under the
    normalized path segment [capitalize R param], which is the lower-cased
    segment with its first symbol in upper case (on an ASCII segment: the
    first character in upper case, the rest in lower case).  When a
    document of that name is stored, the collection is left as it is and
    the first such document is rendered; when none is, one document is
    added, with that name and the three placeholder items the seeder
    returned, and it is rendered.  Visiting [/foo] and then [/Foo] shows
    the same document twice. *)
Theorem get_customNewList_find_or_create (R : Runtime) (param : string)
  (db : DB) :
  ascii_case R ->
  let name := capitalize R param in
  let (defaultItems, db1) := createDefaultItems db in
  let (res, db') := get_customNewList R param db in
  map item_name defaultItems = placeholders /\
  (let (chr, trailing) := splitFirst R (toLowerCase R param) in
   name = (toUpperCase R chr ++ trailing)%string) /\
  (is_ascii param = true -> name = ascii_capitalize param) /\
  ((exists L1 doc L2,
      lists db = L1 ++ doc :: L2 /\
      list_name doc = name /\
      (forall x, In x L1 -> list_name x <> name) /\
      lists db' = lists db /\
      res = render "list" (list_name doc) (list_items doc))
   \/
   ((forall x, In x (lists db) -> list_name x <> name) /\
    exists id,
      lists db' = lists db ++ [mkList id name defaultItems 0] /\
      res = render "list" name defaultItems)) /\
  (let (res1, db1) := get_customNewList R "foo" db in
   let (res2, db2) := get_customNewList R "Foo" db1 in
   exists L1 doc L2,
     lists db1 = L1 ++ doc :: L2 /\
     list_name doc = "Foo" /\
     (forall x, In x L1 -> list_name x <> "Foo") /\
     res1 = render "list" "Foo" (list_items doc) /\
     res2 = res1 /\
     lists db2 = lists db1).
Proof.
  intros HR. cbv zeta. rewrite (get_customNewList_run R param db).
  rewrite (createDefaultItems_run db). cbv beta iota zeta.
  match goal with |- context [List_findOneAndUpdate_upsert ?n ?i ?d] =>
    pose proof (upsert_run n i d) as U;
    destruct (List_findOneAndUpdate_upsert n i d) as [doc db'] end.
  destruct U as (_ & _ & U). simpl in U.
  split; [reflexivity|]. split.
  { unfold capitalize, upperFirst.
    now destruct (splitFirst R (toLowerCase R param)). }
  split; [intros Ha; now apply capitalize_ascii|].
  split.
  - destruct (find (has_name (capitalize R param)) (lists db)) as [l|] eqn:E.
    + destruct U as [-> ->].
      destruct (find_has_name_some _ _ _ E) as (L1 & L2 & EL & Hn & _ & H1).
      left. exists L1, l, L2. auto.
    + destruct U as [-> U]. right. split.
      * now apply find_has_name_none.
      * eexists. split; [exact U | reflexivity].
  - assert (Hfoo : capitalize R "foo" = "Foo")
      by (rewrite (capitalize_ascii R "foo" HR eq_refl); reflexivity).
    assert (HFoo : capitalize R "Foo" = "Foo")
      by (rewrite (capitalize_ascii R "Foo" HR eq_refl); reflexivity).
    pose proof (get_customNewList_same_document R "foo" "Foo" db) as S.
    rewrite Hfoo, HFoo in S. specialize (S eq_refl).
    destruct (get_customNewList R "foo" db) as [res1 db1].
    destruct (get_customNewList R "Foo" db1) as [res2 db2].
    destruct S as (L1 & d & L2 & EL & Hn & H1 & Hr1 & Hr2 & Hl).
    exists L1, d, L2. rewrite Hn in Hr1. auto 7.
Qed.

Lemma get_customNewList_find_or_create_witness :
  ascii_case sample_runtime /\
  let R := sample_runtime in
  let param := "foo" in
  let db := empty_db in
  let name := capitalize R param in
  let (defaultItems, db1) := createDefaultItems db in
  let (res, db') := get_customNewList R param db in
  map item_name defaultItems = placeholders /\
  (let (chr, trailing) := splitFirst R (toLowerCase R param) in
   name = (toUpperCase R chr ++ trailing)%string) /\
  (is_ascii param = true -> name = ascii_capitalize param) /\
  ((exists L1 doc L2,
      lists db = L1 ++ doc :: L2 /\
      list_name doc = name /\
      (forall x, In x L1 -> list_name x <> name) /\
      lists db' = lists db /\
      res = render "list" (list_name doc) (list_items doc))
   \/
   ((forall x, In x (lists db) -> list_name x <> name) /\
    exists id,
      lists db' = lists db ++ [mkList id name defaultItems 0] /\
      res = render "list" name defaultItems)) /\
  (let (res1, db1) := get_customNewList R "foo" db in
   let (res2, db2) := get_customNewList R "Foo" db1 in
   exists L1 doc L2,
     lists db1 = L1 ++ doc :: L2 /\
     list_name doc = "Foo" /\
     (forall x, In x L1 -> list_name x <> "Foo") /\
     res1 = render "list" "Foo" (list_items doc) /\
     res2 = res1 /\
     lists db2 = lists db1).
Proof.
  split; [exact sample_ascii_case|].
  exact (get_customNewList_find_or_create sample_runtime "foo" empty_db
           sample_ascii_case).
Defined.

(** ** Invariants of the List collection *)

(** A request either leaves the sequence of list names as it is, or is a
    visit to a custom list page whose normalized name is not stored yet and
    adds that name. *)
Lemma handle_names (R : Runtime) (today : string) (req : Request) (db : DB) :
  let names d := map list_name (lists d) in
  names (snd (handle R today req db)) = names db \/
  exists p,
    req = GET_customNewList p /\
    ~ In (capitalize R p) (names db) /\
    names (snd (handle R today req db)) = names db ++ [capitalize R p].
Proof.
  cbv zeta. destruct req as [|p|i l|i t l|l c]; simpl.
  - left. rewrite get_root_run.
    destruct (Nat.eqb (List.length (items db)) 0); [|reflexivity].
    now rewrite createDefaultItems_run.
  - rewrite get_customNewList_run, createDefaultItems_run.
    cbv beta iota zeta.
    match goal with |- context [List_findOneAndUpdate_upsert ?n ?i ?d] =>
      pose proof (upsert_run n i d) as U;
      destruct (List_findOneAndUpdate_upsert n i d) as [doc db'] end.
    simpl in *. destruct U as (_ & _ & U).
    destruct (find (has_name (capitalize R p)) (lists db)) eqn:E.
    + left. destruct U as [_ ->]. reflexivity.
    + right. exists p. destruct U as [-> ->].
      rewrite map_app. simpl.
      split; [reflexivity|]. split; [|reflexivity].
      intros Hin. apply in_map_iff in Hin as (x & Hx & Hin).
      now apply (proj1 (find_has_name_none _ _) E x Hin).
  - left. rewrite post_root_run.
    destruct (checked_string i); [|reflexivity].
    destruct (checked_string l) as [listName|]; [|reflexivity].
    cbv zeta. destruct (listName =? today); [reflexivity|].
    destruct (find (has_name listName) (lists db)); [|reflexivity].
    simpl. now apply map_update_first.
  - left. rewrite post_edit_run.
    destruct i as [id|], t as [newInput|]; try reflexivity.
    destruct ((id =? "") || (newInput =? "")); [reflexivity|].
    destruct (castObjectId R id); [|reflexivity].
    destruct (l =? today); [reflexivity|].
    simpl. now apply map_update_first.
  - left. rewrite post_delete_run.
    destruct (castObjectId R c); [|reflexivity].
    destruct (l =? today); [reflexivity|].
    simpl. now apply map_update_first.
Qed.

Lemma startup_lists (db : DB) : lists (snd (startup db)) = lists db.
Proof.
  unfold startup, bind, ret. rewrite createDefaultItems_run. reflexivity.
Qed.

Lemma handle_unique_names (R : Runtime) (today : string) (req : Request)
  (db : DB) :
  unique_names db -> unique_names (snd (handle R today req db)).
Proof.
  unfold unique_names. intros H.
  destruct (handle_names R today req db) as [->|(p & _ & Hp & ->)];
    [exact H|].
  apply NoDup_app; [exact H | repeat constructor; intros [] |].
  intros x Hx Hin. simpl in Hin. destruct Hin as [<- | []]. contradiction.
Qed.

Lemma handle_names_capitalized (R : Runtime) (today : string) (req : Request)
  (db : DB) :
  names_capitalized R db -> names_capitalized R (snd (handle R today req db)).
Proof.
  unfold names_capitalized.
  rewrite <- !(Forall_map list_name (fun n => exists p, n = capitalize R p)).
  intros H.
  destruct (handle_names R today req db) as [->|(p & _ & Hp & ->)];
    [exact H|].
  apply Forall_app. split; [exact H|].
  constructor; [now exists p | constructor].
Qed.

Lemma reachable_names_capitalized (R : Runtime) (db : DB) :
  reachable R db -> names_capitalized R db.
Proof.
  induction 1 as [|db _ IH|db now req _ IH].
  - constructor.
  - unfold names_capitalized. now rewrite startup_lists.
  - now apply handle_names_capitalized.
Qed.

Lemma count_named_names (nm : string) (ls : list ListDoc) :
  List.length (filter (fun l => list_name l =? nm) ls)
  = List.length (filter (fun n => n =? nm) (map list_name ls)).
Proof.
  induction ls as [|l r IH]; simpl; [reflexivity|].
  destruct (list_name l =? nm); simpl; now rewrite IH.
Qed.

Lemma unique_names_count (db : DB) (nm : string) :
  unique_names db -> count_named nm db <= 1.
Proof.
  unfold unique_names, count_named. rewrite count_named_names.
  induction (map list_name (lists db)) as [|n r IH]; simpl; [lia|].
  intros H. inversion H as [|? ? Hl Hr]; subst.
  destruct (String.eqb_spec n nm) as [->|Hn]; simpl; [|now apply IH].
  assert (F : filter (fun n => n =? nm) r = []).
  { clear -Hl. induction r as [|x r IH]; simpl; [reflexivity|].
    simpl in Hl. destruct (String.eqb_spec x nm) as [->|_]; [tauto|].
    apply IH. tauto. }
  rewrite F. simpl. lia.
Qed.

Lemma count_unique_names (db : DB) :
  (forall nm, count_named nm db <= 1) -> unique_names db.
Proof.
  unfold unique_names, count_named. intros H.
  assert (H' : forall nm,
             List.length (filter (fun n => n =? nm)
                            (map list_name (lists db))) <= 1)
    by (intros nm; rewrite <- count_named_names; apply H).
  clear H. induction (map list_name (lists db)) as [|n r IH]; constructor.
  - intros Hin. specialize (H' n). simpl in H'.
    rewrite String.eqb_refl in H'. simpl in H'.
    assert (In n (filter (fun x => x =? n) r)) as F
      by (apply filter_In; split; [exact Hin | apply String.eqb_refl]).
    destruct (filter (fun x => x =? n) r); [destruct F | simpl in H'; lia].
  - apply IH. intros nm. specialize (H' nm). simpl in H'.
    destruct (n =? nm); simpl in H'; lia.
Qed.

Lemma reachable_unique_names (R : Runtime) (db : DB) :
  reachable R db -> unique_names db.
Proof.
  induction 1 as [|db _ IH|db now req _ IH].
  - constructor.
  - unfold unique_names. now rewrite startup_lists.
  - now apply handle_unique_names.
Qed.

(** C3.  In every state the server can reach, every stored List document
    is named by the normal form of some path, and the List collection holds
    at most one document of any name; each handler (the two pages, add,
    edit, delete), run on a store with at most one document per name,
    leaves a store with at most one document per name. *)
Theorem one_list_per_name (R : Runtime) :
  (forall db, reachable R db ->
     names_capitalized R db /\ forall nm, count_named nm db <= 1) /\
  (forall today req db,
     (forall nm, count_named nm db <= 1) ->
     forall nm, count_named nm (snd (handle R today req db)) <= 1).
Proof.
  split.
  - intros db H. split; [now apply reachable_names_capitalized|].
    intros nm. now apply unique_names_count, (reachable_unique_names R).
  - intros today req db H nm.
    now apply unique_names_count, handle_unique_names, count_unique_names.
Qed.

Lemma one_list_per_name_witness :
  (forall nm, count_named nm empty_db <= 1) /\
  (forall nm,
     count_named nm
       (snd (handle sample_runtime "Monday, January 1"
               (GET_customNewList "foo") empty_db))
     <= 1) /\
  count_named "Foo"
    (snd (handle sample_runtime "Monday, January 1"
            (GET_customNewList "foo") empty_db)) = 1.
Proof.
  split; [|split].
  - intros nm. unfold count_named. simpl. lia.
  - apply (proj2 (one_list_per_name sample_runtime)).
    intros nm. unfold count_named. simpl. lia.
  - reflexivity.
Defined.

(** ** Adding an item *)

(** C4.  An add request whose [list] field is today's date string and whose
    [newItem] field is a non-blank string appends one item of that name to
    the Item collection, whose count grows by exactly one, leaves the List
    collection as it was, and answers with a redirect to ["/"]. *)
Theorem post_root_today (now : Clock) (newItem : FormValue)
  (itemName : string) (db : DB) :
  non_blank newItem itemName ->
  let today := getLocalDate now in
  let (res, db') := post_root today newItem (VString today) db in
  res = redirect "/" /\
  (exists item, item_name item = itemName /\ items db' = items db ++ [item]) /\
  List.length (items db') = S (List.length (items db)) /\
  lists db' = lists db.
Proof.
  intros H. cbv zeta. rewrite post_root_run.
  rewrite (checked_string_non_blank _ _ H).
  rewrite (checked_string_non_blank _ _ (getLocalDate_non_blank now)).
  cbv zeta. rewrite String.eqb_refl. simpl.
  repeat split.
  - eexists. split; [|reflexivity]. reflexivity.
  - rewrite length_app. simpl. lia.
Qed.

Lemma post_root_today_witness :
  non_blank (VString "Buy milk") "Buy milk" /\
  let today := getLocalDate (mkClock Monday January 1) in
  let (res, db') :=
    post_root today (VString "Buy milk") (VString today) empty_db in
  res = redirect "/" /\
  (exists item,
     item_name item = "Buy milk" /\ items db' = items empty_db ++ [item]) /\
  List.length (items db') = S (List.length (items empty_db)) /\
  lists db' = lists empty_db.
Proof.
  split.
  - split; reflexivity.
  - apply (post_root_today (mkClock Monday January 1) (VString "Buy milk")
             "Buy milk" empty_db).
    split; reflexivity.
Defined.

Lemma no_list_named (nm : string) (db : DB) :
  (forall l, In l (lists db) -> list_name l <> nm) ->
  find (has_name nm) (lists db) = None.
Proof. apply find_has_name_none. Qed.

(** The add handler when the named list is not stored: the item name is
    checked first, then the look-up fails; only an identifier is drawn. *)
Lemma post_root_no_such_list (today : string) (newItem list : FormValue)
  (listName : string) (db : DB) :
  non_blank list listName ->
  listName <> today ->
  find (has_name listName) (lists db) = None ->
  post_root today newItem list db =
  match checked_string newItem with
  | None => (status_send 400 "Item name must be a non-empty string", db)
  | Some _ =>
      (status_send 400 "List not found!",
       mkDB (items db) (lists db) (N.succ (next_oid db)))
  end.
Proof.
  intros Hl Ht Hnone. rewrite post_root_run.
  destruct (checked_string newItem) as [itemName|]; [|reflexivity].
  rewrite (checked_string_non_blank _ _ Hl). cbv zeta.
  apply String.eqb_neq in Ht. now rewrite Ht, Hnone.
Qed.

(** C5, as the code has it.  An add request whose [list] field is a
    non-blank string other than today's date string, naming no stored List
    document, is answered with status 400 and leaves both collections as
    they were; when its [newItem] field is a non-blank string the body of
    the answer is ["List not found!"]. *)
Theorem post_root_list_not_found (today : string) (newItem list : FormValue)
  (listName : string) (db : DB) :
  non_blank list listName ->
  listName <> today ->
  (forall l, In l (lists db) -> list_name l <> listName) ->
  let (res, db') := post_root today newItem list db in
  (exists body, res = status_send 400 body) /\
  (forall itemName, non_blank newItem itemName ->
     res = status_send 400 "List not found!") /\
  items db' = items db /\
  lists db' = lists db.
Proof.
  intros Hl Ht Hnone.
  rewrite (post_root_no_such_list today newItem list listName db Hl Ht
             (no_list_named _ _ Hnone)).
  pose proof (checked_string_spec newItem) as Hi.
  destruct (checked_string newItem) as [itemName|].
  - repeat split; eauto.
  - repeat split; eauto.
    intros itemName Hn. apply checked_string_non_blank in Hn.
    pose proof (checked_string_blank _ Hi). congruence.
Qed.

Lemma post_root_list_not_found_witness :
  non_blank (VString "Groceries") "Groceries" /\
  "Groceries" <> "Monday, January 1" /\
  (forall l, In l (lists empty_db) -> list_name l <> "Groceries") /\
  let (res, db') :=
    post_root "Monday, January 1" (VString "Buy milk") (VString "Groceries")
      empty_db in
  (exists body, res = status_send 400 body) /\
  (forall itemName, non_blank (VString "Buy milk") itemName ->
     res = status_send 400 "List not found!") /\
  items db' = items empty_db /\
  lists db' = lists empty_db.
Proof.
  assert (H1 : non_blank (VString "Groceries") "Groceries")
    by (split; reflexivity).
  assert (H2 : "Groceries" <> "Monday, January 1") by discriminate.
  assert (H3 : forall l, In l (lists empty_db) -> list_name l <> "Groceries")
    by (simpl; intros l []).
  repeat split; trivial.
  apply (post_root_list_not_found "Monday, January 1" (VString "Buy milk")
           (VString "Groceries") "Groceries" empty_db H1 H2 H3).
Defined.

(** C5 as stated fails when [newItem] is blank, be it empty or a no-break
    space: the answer is the complaint about the item name, not
    ["List not found!"]. *)
Lemma post_root_list_not_found_counterexample :
  let today := getLocalDate (mkClock Monday January 1) in
  non_blank (VString "Groceries") "Groceries" /\
  "Groceries" <> today /\
  (forall l, In l (lists empty_db) -> list_name l <> "Groceries") /\
  fst (post_root today (VString "") (VString "Groceries") empty_db)
  = status_send 400 "Item name must be a non-empty string" /\
  fst (post_root today (VString nbsp) (VString "Groceries") empty_db)
  = status_send 400 "Item name must be a non-empty string" /\
  fst (post_root today (VString "") (VString "Groceries") empty_db)
  <> status_send 400 "List not found!".
Proof.
  cbv zeta. repeat split; try reflexivity; try discriminate.
  simpl. intros l [].
Qed.

(** C6.  An add request whose [newItem] field, or whose [list] field, is
    missing, not a string, or made of white space only is answered with
    status 400 and the store is returned exactly as it was received: no
    store operation has run. *)
Theorem post_root_rejects_blank (today : string) (newItem list : FormValue)
  (db : DB) :
  missing_or_blank newItem \/ missing_or_blank list ->
  exists body,
    post_root today newItem list db = (status_send 400 body, db).
Proof.
  intros H. rewrite post_root_run.
  destruct (checked_string newItem) as [itemName|] eqn:Ei; [|eauto].
  destruct H as [H|H]; apply checked_string_blank in H; [congruence|].
  rewrite H. eauto.
Qed.

Lemma post_root_rejects_blank_witness :
  (missing_or_blank (VString nbsp) \/ missing_or_blank (VString "Foo")) /\
  exists body,
    post_root "Monday, January 1" (VString nbsp) (VString "Foo") empty_db
    = (status_send 400 body, empty_db).
Proof.
  split.
  - left. reflexivity.
  - apply (post_root_rejects_blank "Monday, January 1" (VString nbsp)
             (VString "Foo") empty_db).
    left. reflexivity.
Defined.

(** C10, as the code has it.  The add handler looks the list up under the
    submitted text itself, while the custom list page stores lists under
    normalized names.  So when a stored list's name differs in case from the
    submitted [list] text, and no list is stored under that very text, the
    text being a non-blank string other than today's date string and
    [newItem] a non-blank string, the answer is 400 ["List not found!"] and
    both collections stay as they were, although the list is there under
    its own name. *)
Theorem post_root_exact_name (R : Runtime) (today : string)
  (newItem : FormValue) (itemName l : string) (doc : ListDoc) (db : DB) :
  In doc (lists db) ->
  differs_in_case R (list_name doc) l ->
  (forall d, In d (lists db) -> list_name d <> l) ->
  non_blank (VString l) l ->
  l <> today ->
  non_blank newItem itemName ->
  let (res, db') := post_root today newItem (VString l) db in
  res = status_send 400 "List not found!" /\
  items db' = items db /\
  lists db' = lists db /\
  In doc (lists db').
Proof.
  intros Hin Hd Hnone Hb Ht Hi.
  rewrite (post_root_no_such_list today newItem (VString l) l db Hb Ht
             (no_list_named _ _ Hnone)).
  rewrite (checked_string_non_blank _ _ Hi). now repeat split.
Qed.

Lemma post_root_exact_name_witness :
  let R := sample_runtime in
  let now := mkClock Monday January 1 in
  let db := snd (handle R (getLocalDate now) (GET_customNewList "foo")
                   empty_db) in
  let doc := mkList "3" "Foo" (fst (createDefaultItems empty_db)) 0 in
  In doc (lists db) /\
  differs_in_case R (list_name doc) "foo" /\
  (forall d, In d (lists db) -> list_name d <> "foo") /\
  non_blank (VString "foo") "foo" /\
  "foo" <> getLocalDate now /\
  non_blank (VString "Buy milk") "Buy milk" /\
  let (res, db') :=
    post_root (getLocalDate now) (VString "Buy milk") (VString "foo") db in
  res = status_send 400 "List not found!" /\
  items db' = items db /\
  lists db' = lists db /\
  In doc (lists db').
Proof.
  cbv zeta.
  assert (H1 : In (mkList "3" "Foo" (fst (createDefaultItems empty_db)) 0)
            (lists
               (snd (handle sample_runtime
                       (getLocalDate (mkClock Monday January 1))
                       (GET_customNewList "foo") empty_db))))
    by (left; reflexivity).
  assert (H2 : differs_in_case sample_runtime
            (list_name
               (mkList "3" "Foo" (fst (createDefaultItems empty_db)) 0))
            "foo")
    by (split; [reflexivity | discriminate]).
  assert (H3 : forall d,
            In d (lists
                    (snd (handle sample_runtime
                            (getLocalDate (mkClock Monday January 1))
                            (GET_customNewList "foo") empty_db))) ->
            list_name d <> "foo")
    by (simpl; intros d [<-|[]]; discriminate).
  assert (H4 : non_blank (VString "foo") "foo") by (split; reflexivity).
  assert (H5 : "foo" <> getLocalDate (mkClock Monday January 1))
    by discriminate.
  assert (H6 : non_blank (VString "Buy milk") "Buy milk")
    by (split; reflexivity).
  repeat (split; [assumption|]).
  exact (post_root_exact_name _ _ _ _ _ _ _ H1 H2 H3 H4 H5 H6).
Defined.

(** C10 as stated fails in three ways.  With a blank [newItem] the answer
    is the complaint about the item name.  On the day whose date string is
    the submitted text, the item goes to the Item collection, although the
    list stored under the normalized name differs from that text in case.
    And a list can be stored under the submitted text as well: the page of
    U+00DF "a" stores "SSa", the page of "ssa" stores "Ssa", the two differ
    in case only, and an add to "Ssa" pushes the item. *)
Lemma post_root_exact_name_counterexample :
  let R := sample_runtime in
  let today := getLocalDate (mkClock Monday January 1) in
  let db1 := snd (get_customNewList R "foo" empty_db) in
  let db2 := snd (get_customNewList R today empty_db) in
  let db3 :=
    snd (get_customNewList R "ssa"
           (snd (get_customNewList R sharp_s_a empty_db))) in
  (map list_name (lists db1) = ["Foo"] /\
   differs_in_case R "Foo" "foo" /\
   "foo" <> today /\
   fst (post_root today (VString "") (VString "foo") db1)
   = status_send 400 "Item name must be a non-empty string") /\
  (map list_name (lists db2) = ["Monday, january 1"] /\
   differs_in_case R "Monday, january 1" today /\
   post_root today (VString "Buy milk") (VString today) db2
   = (redirect "/",
      mkDB (items db2 ++ [mkItem "4" "Buy milk"]) (lists db2) 5)) /\
  (map list_name (lists db3) = ["SSa"; "Ssa"] /\
   differs_in_case R "SSa" "Ssa" /\
   "Ssa" <> today /\
   fst (post_root today (VString "Buy milk") (VString "Ssa") db3)
   = redirect "/Ssa" /\
   map (fun d => List.length (list_items d))
     (lists (snd (post_root today (VString "Buy milk") (VString "Ssa") db3)))
   = [3; 4]).
Proof.
  cbv zeta. split; [|split].
  - repeat split; try reflexivity; discriminate.
  - repeat split; try reflexivity; discriminate.
  - repeat split; try reflexivity; discriminate.
Qed.

(** ** Editing an item *)

Lemma update_first_renamed (id : ObjectId) (nm : string) (its : list Item) :
  existsb (has_id id) its = true ->
  renamed id nm its (update_first (has_id id) (set_item_name nm) its).
Proof.
  intros H.
  destruct (first_match _ _ H) as (l1 & x & l2 & -> & Hx & H1 & _ & -> & _).
  apply has_id_true in Hx.
  unfold set_item_name. rewrite Hx.
  constructor; [exact Hx | now apply no_has_id_forall].
Qed.

Lemma db_eta (db : DB) : mkDB (items db) (lists db) (next_oid db) = db.
Proof. now destruct db. Qed.

(** C7, as the code has it.  An edit request whose identifier and title are
    both present and not empty: when the mapper cannot cast the identifier,
    the answer is 500 ["Failed to edit item"] and the store is unchanged.
    Otherwise the answer is a redirect.  On today's list the List
    collection is left alone; when an item of the Item collection has the
    identifier, the first such item gets the title as its name and nothing
    else changes; when none has, the store is unchanged.  On a named list
    the Item collection is left alone; when a document of that name embeds
    an item with the identifier, in the first such document the first such
    item gets the title as its name and nothing else changes; when none
    does, the store is unchanged. *)
Theorem post_edit_renames_one (R : Runtime) (today id title listName : string)
  (db : DB) :
  id <> "" ->
  title <> "" ->
  let (res, db') := post_edit R today (Some id) (Some title) listName db in
  next_oid db' = next_oid db /\
  match castObjectId R id with
  | None => res = status_send 500 "Failed to edit item" /\ db' = db
  | Some oid =>
      is_redirect res = true /\
      if listName =? today
      then
        res = redirect "/" /\
        lists db' = lists db /\
        ((In oid (map item_id (items db)) /\
          renamed oid title (items db) (items db'))
         \/
         (~ In oid (map item_id (items db)) /\ db' = db))
      else
        res = redirect ("/" ++ listName)%string /\
        items db' = items db /\
        (((exists l, In l (lists db) /\ list_name l = listName /\
                     In oid (map item_id (list_items l))) /\
          renamed_in listName oid title (lists db) (lists db'))
         \/
         ((forall l, In l (lists db) -> list_name l = listName ->
                     ~ In oid (map item_id (list_items l))) /\
          db' = db))
  end.
Proof.
  intros Hid Ht. rewrite post_edit_run.
  apply String.eqb_neq in Hid, Ht. rewrite Hid, Ht. simpl.
  destruct (castObjectId R id) as [oid|]; [|now repeat split].
  destruct (listName =? today); simpl.
  - repeat split.
    destruct (existsb (has_id oid) (items db)) eqn:E.
    + left. split; [now apply existsb_has_id|].
      now apply update_first_renamed.
    + right. split; [now apply no_has_id|].
      rewrite update_first_miss by exact E. apply db_eta.
  - repeat split.
    match goal with |- context [update_first ?q _ (lists db)] =>
      destruct (existsb q (lists db)) eqn:E end.
    + left.
      destruct (first_match _ _ E)
        as (L1 & x & L2 & EL & Hx & H1 & _ & Hu & _).
      apply andb_prop in Hx as [Hn Hi]. apply has_name_true in Hn.
      split.
      * exists x. repeat split; trivial.
        -- rewrite EL. apply in_or_app. right. now left.
        -- now apply existsb_has_id.
      * rewrite Hu, EL. unfold set_list_items.
        constructor; [exact Hn | | now apply update_first_renamed].
        intros y Hy Hyn. rewrite existsb_false_forall in H1.
        specialize (H1 y Hy). simpl in H1.
        apply has_name_true in Hyn. rewrite Hyn in H1. simpl in H1.
        now apply no_has_id.
    + right. split.
      * intros l Hl Hln. rewrite existsb_false_forall in E.
        specialize (E l Hl). simpl in E.
        apply has_name_true in Hln. rewrite Hln in E. simpl in E.
        now apply no_has_id.
      * rewrite update_first_miss by exact E. apply db_eta.
Qed.

Lemma post_edit_renames_one_witness :
  let R := sample_runtime in
  let db := snd (get_customNewList R "foo" empty_db) in
  "1" <> "" /\ "Call home" <> "" /\
  castObjectId R "1" = Some "1" /\
  let (res, db') :=
    post_edit R "Monday, January 1" (Some "1") (Some "Call home") "Foo" db in
  next_oid db' = next_oid db /\
  is_redirect res = true /\
  res = redirect "/Foo" /\
  items db' = items db /\
  (((exists l, In l (lists db) /\ list_name l = "Foo" /\
               In "1" (map item_id (list_items l))) /\
    renamed_in "Foo" "1" "Call home" (lists db) (lists db'))
   \/
   ((forall l, In l (lists db) -> list_name l = "Foo" ->
               ~ In "1" (map item_id (list_items l))) /\
    db' = db)).
Proof.
  cbv zeta.
  assert (H1 : "1" <> "") by discriminate.
  assert (H2 : "Call home" <> "") by discriminate.
  repeat (split; [assumption|]).
  split; [reflexivity|].
  exact (post_edit_renames_one sample_runtime "Monday, January 1" "1"
           "Call home" "Foo"
           (snd (get_customNewList sample_runtime "foo" empty_db)) H1 H2).
Defined.

(** C7 as stated fails for an identifier the mapper cannot cast: it matches
    nothing, and the answer is not a redirect but 500, on today's list and
    on a named list. *)
Lemma post_edit_renames_one_counterexample :
  let R := sample_runtime in
  let today := getLocalDate (mkClock Monday January 1) in
  let db := snd (get_customNewList R "foo" empty_db) in
  "not-an-id" <> "" /\ "Call home" <> "" /\
  ~ In "not-an-id" (map item_id (items db)) /\
  (forall l, In l (lists db) ->
             ~ In "not-an-id" (map item_id (list_items l))) /\
  post_edit R today (Some "not-an-id") (Some "Call home") today db
  = (status_send 500 "Failed to edit item", db) /\
  post_edit R today (Some "not-an-id") (Some "Call home") "Foo" db
  = (status_send 500 "Failed to edit item", db) /\
  is_redirect
    (fst (post_edit R today (Some "not-an-id") (Some "Call home") today db))
  = false.
Proof.
  cbv zeta. repeat split; try reflexivity; try discriminate.
  - simpl. intuition discriminate.
  - simpl. intros l [<-|[]]. simpl. intuition discriminate.
Qed.

(** ** Deleting an item *)

Lemma set_list_items_same (f : list Item -> list Item) (l : ListDoc) :
  f (list_items l) = list_items l -> set_list_items f l = l.
Proof. unfold set_list_items. intros ->. now destruct l. Qed.

(** C8, as the code has it.  A delete request is never answered with a
    client error.  When the mapper cannot cast the identifier, the answer
    is 500 and the store is unchanged.  Otherwise the answer is a redirect
    and, with no identifier twice in the Item collection, the list the
    request targets (the Item collection when [listName] is today's date
    string, the embedded array of the document of that name otherwise) is
    afterwards what it was before without the items that have the
    identifier, so a fetch of that list no longer shows the identifier; and
    when the targeted list did not show the identifier, the store is
    unchanged. *)
Theorem post_delete_removes (R : Runtime) (today listName checkbox : string)
  (db : DB) :
  unique_item_ids db ->
  let (res, db') := post_delete R today listName checkbox db in
  is_client_error res = false /\
  match castObjectId R checkbox with
  | None =>
      res = status_send 500
              (if listName =? today then "Error deleting item!"
               else "Error deleting item from list!") /\
      db' = db
  | Some oid =>
      res = redirect (if listName =? today then "/"
                      else "/" ++ listName)%string /\
      targeted today listName db'
      = option_map (filter (fun it => negb (item_id it =? oid)))
          (targeted today listName db) /\
      (forall its, targeted today listName db' = Some its ->
                   ~ In oid (map item_id its)) /\
      ((forall its, targeted today listName db = Some its ->
                    ~ In oid (map item_id its)) ->
       db' = db)
  end.
Proof.
  intros Hu. rewrite post_delete_run. unfold targeted.
  destruct (castObjectId R checkbox) as [oid|]; [|now repeat split].
  destruct (listName =? today) eqn:Et; simpl.
  - rewrite (remove_first_filter _ _ Hu).
    repeat split.
    + intros its [= <-]. apply no_has_id, existsb_filter_negb.
    + intros H. rewrite filter_miss; [apply db_eta|].
      now apply no_has_id, H.
  - change (fun l : ListDoc => list_name l =? listName)
      with (has_name listName).
    rewrite find_update_first by reflexivity.
    destruct (find (has_name listName) (lists db)) as [l|] eqn:E; simpl.
    + repeat split.
      * intros its [= <-]. apply no_has_id, existsb_filter_negb.
      * intros Hm. specialize (Hm _ eq_refl). apply no_has_id in Hm.
        destruct (find_has_name_some _ _ _ E) as (L1 & L2 & EL & Hn & H1 & _).
        rewrite EL at 1.
        rewrite update_first_at;
          [| exact H1 | now apply has_name_true].
        rewrite set_list_items_same by now apply filter_miss.
        rewrite <- EL. apply db_eta.
    + repeat split; [discriminate|]. intros _.
      rewrite update_first_miss by now rewrite find_existsb, E.
      apply db_eta.
Qed.

Lemma post_delete_removes_witness :
  let R := sample_runtime in
  let db := snd (get_customNewList R "foo" empty_db) in
  let today := "Monday, January 1" in
  unique_item_ids db /\
  castObjectId R "1" = Some "1" /\
  let (res, db') := post_delete R today today "1" db in
  is_client_error res = false /\
  res = redirect "/" /\
  targeted today today db'
  = option_map (filter (fun it => negb (item_id it =? "1")))
      (targeted today today db) /\
  (forall its, targeted today today db' = Some its ->
               ~ In "1" (map item_id its)) /\
  ((forall its, targeted today today db = Some its ->
                ~ In "1" (map item_id its)) ->
   db' = db).
Proof.
  cbv zeta.
  assert (H : unique_item_ids
                (snd (get_customNewList sample_runtime "foo" empty_db))).
  { unfold unique_item_ids. simpl.
    repeat constructor; simpl; intuition discriminate. }
  split; [exact H|]. split; [reflexivity|].
  exact (post_delete_removes sample_runtime "Monday, January 1"
           "Monday, January 1" "1"
           (snd (get_customNewList sample_runtime "foo" empty_db)) H).
Defined.

(** C8 as stated fails for an identifier the mapper cannot cast: it matches
    nothing, and the answer is not a redirect but 500, on both branches. *)
Lemma post_delete_removes_counterexample :
  let R := sample_runtime in
  let today := getLocalDate (mkClock Monday January 1) in
  let db := snd (get_customNewList R "foo" empty_db) in
  ~ In "not-an-id" (map item_id (items db)) /\
  post_delete R today today "not-an-id" db
  = (status_send 500 "Error deleting item!", db) /\
  post_delete R today "Foo" "not-an-id" db
  = (status_send 500 "Error deleting item from list!", db) /\
  is_redirect (fst (post_delete R today today "not-an-id" db)) = false /\
  is_redirect (fst (post_delete R today "Foo" "not-an-id" db)) = false.
Proof.
  cbv zeta. repeat split; try reflexivity.
  simpl. intuition discriminate.
Qed.

(** ** The two collections are independent *)

(** C9.  Editing or deleting on a named list leaves the Item collection as
    it was, and editing or deleting on today's list leaves the List
    collection, with every embedded array, as it was. *)
Theorem embedded_items_independent (R : Runtime) (today : string)
  (updatedItemId updatedItemTitle : option string)
  (listName checkbox : string) (db : DB) :
  let edited :=
    snd (post_edit R today updatedItemId updatedItemTitle listName db) in
  let deleted := snd (post_delete R today listName checkbox db) in
  if listName =? today
  then lists edited = lists db /\ lists deleted = lists db
  else items edited = items db /\ items deleted = items db.
Proof.
  cbv zeta. rewrite post_edit_run, post_delete_run.
  destruct updatedItemId as [id|], updatedItemTitle as [newInput|];
    try destruct ((id =? "") || (newInput =? ""));
    try destruct (castObjectId R id);
    destruct (castObjectId R checkbox);
    destruct (listName =? today); simpl; split; reflexivity.
Qed.

(** ** The identifiers of the two collections *)

Lemma drawn_below_mono (m n : N) (ids : list ObjectId) :
  (m <= n)%N -> Forall (drawn_below m) ids -> Forall (drawn_below n) ids.
Proof.
  intros Hmn. apply Forall_impl. intros i (k & Hk & ->).
  exists k. split; [lia | reflexivity].
Qed.

Lemma drawn_below_fresh (n : N) (ids : list ObjectId) :
  Forall (drawn_below n) ids -> ~ In (oid_text n) ids.
Proof.
  intros H Hin. rewrite Forall_forall in H.
  destruct (H _ Hin) as (k & Hk & E). apply oid_text_inj in E. lia.
Qed.

Lemma fresh_id_absent (n : N) (its : list Item) :
  Forall (drawn_below n) (map item_id its) ->
  existsb (has_id (oid_text n)) its = false.
Proof.
  intros H. apply no_has_id. now apply drawn_below_fresh.
Qed.

Lemma item_ids_fresh_keep (db db' : DB) :
  map item_id (items db') = map item_id (items db) ->
  (next_oid db <= next_oid db')%N ->
  item_ids_fresh db -> item_ids_fresh db'.
Proof.
  unfold item_ids_fresh. intros -> Hn [H1 H2]. split; [exact H1|].
  now apply (drawn_below_mono (next_oid db)).
Qed.

Lemma createDefaultItems_item_ids_fresh (db : DB) :
  item_ids_fresh db -> item_ids_fresh (snd (createDefaultItems db)).
Proof.
  rewrite createDefaultItems_run. cbv zeta.
  destruct (Nat.eqb (List.length (items db)) 0) eqn:E.
  - assert (E0 : items db = [])
      by (destruct (items db); [reflexivity | discriminate E]).
    intros _. unfold item_ids_fresh. simpl. rewrite E0. simpl. split.
    + repeat constructor; simpl;
        intros H; repeat destruct H as [H|H]; try contradiction;
        apply oid_text_inj in H; lia.
    + repeat constructor.
      * exists (next_oid db). split; [lia | reflexivity].
      * exists (N.succ (next_oid db)). split; [lia | reflexivity].
      * exists (N.succ (N.succ (next_oid db))). split; [lia | reflexivity].
  - apply item_ids_fresh_keep; simpl; [now rewrite app_nil_r | lia].
Qed.

Lemma remove_first_item_ids (id : ObjectId) (its : list Item) (n : N) :
  NoDup (map item_id its) /\ Forall (drawn_below n) (map item_id its) ->
  NoDup (map item_id (remove_first (has_id id) its)) /\
  Forall (drawn_below n) (map item_id (remove_first (has_id id) its)).
Proof.
  destruct (existsb (has_id id) its) eqn:E.
  - destruct (first_match _ _ E) as (l1 & x & l2 & -> & _ & _ & _ & _ & ->).
    rewrite !map_app. simpl. intros [H1 H2]. split.
    + now apply NoDup_remove_1 in H1.
    + apply Forall_app in H2 as [Ha Hb]. inversion Hb; subst.
      apply Forall_app. now split.
  - now rewrite remove_first_miss.
Qed.

Lemma handle_item_ids_fresh (R : Runtime) (today : string) (req : Request)
  (db : DB) :
  item_ids_fresh db -> item_ids_fresh (snd (handle R today req db)).
Proof.
  destruct req as [|p|i l|i t l|l c]; simpl; intros H.
  - rewrite get_root_run.
    destruct (Nat.eqb (List.length (items db)) 0); [|exact H].
    now apply createDefaultItems_item_ids_fresh.
  - rewrite get_customNewList_run.
    apply createDefaultItems_item_ids_fresh in H.
    destruct (createDefaultItems db) as [d db1]. simpl in H.
    unfold List_findOneAndUpdate_upsert.
    destruct (find (has_name (capitalize R p)) (lists db1)); simpl;
      [exact H|].
    revert H. apply item_ids_fresh_keep; simpl; [reflexivity | lia].
  - rewrite post_root_run.
    destruct (checked_string i) as [itemName|]; [|exact H].
    destruct (checked_string l) as [listName|]; [|exact H].
    cbv zeta. destruct (listName =? today); simpl.
    + destruct H as [H1 H2]. unfold item_ids_fresh. simpl.
      rewrite map_app. simpl. split.
      * apply NoDup_app; [exact H1 | repeat constructor; intros [] |].
        intros x Hx [<-|[]]. now apply (drawn_below_fresh _ _ H2).
      * apply Forall_app. split.
        -- apply (drawn_below_mono (next_oid db)); [lia | exact H2].
        -- repeat constructor. exists (next_oid db). split; [lia|reflexivity].
    + destruct (find (has_name listName) (lists db)); simpl; revert H;
        apply item_ids_fresh_keep; simpl; try reflexivity; lia.
  - rewrite post_edit_run.
    destruct i as [id|], t as [newInput|]; try exact H.
    destruct ((id =? "") || (newInput =? "")); [exact H|].
    destruct (castObjectId R id); [|exact H].
    destruct (l =? today); simpl; revert H;
      apply item_ids_fresh_keep; simpl; try reflexivity; try lia.
    now apply map_update_first.
  - rewrite post_delete_run.
    destruct (castObjectId R c); [|exact H].
    destruct (l =? today); simpl.
    + now apply remove_first_item_ids.
    + revert H. apply item_ids_fresh_keep; simpl; [reflexivity | lia].
Qed.

Lemma embedded_fresh_mono (m n : N) (l : ListDoc) :
  (m <= n)%N -> embedded_fresh m l -> embedded_fresh n l.
Proof.
  intros Hmn [H1 H2]. split; [exact H1|].
  now apply (drawn_below_mono m).
Qed.

Lemma list_ids_fresh_keep (db db' : DB) :
  map list_id (lists db') = map list_id (lists db) ->
  (next_oid db <= next_oid db')%N ->
  Forall (embedded_fresh (next_oid db')) (lists db') ->
  list_ids_fresh db -> list_ids_fresh db'.
Proof.
  unfold list_ids_fresh. intros -> Hn He (H1 & H2 & _).
  repeat split; trivial. now apply (drawn_below_mono (next_oid db)).
Qed.

Lemma list_ids_fresh_same_lists (db db' : DB) :
  lists db' = lists db ->
  (next_oid db <= next_oid db')%N ->
  list_ids_fresh db -> list_ids_fresh db'.
Proof.
  intros E Hn H. apply (list_ids_fresh_keep db); trivial.
  - now rewrite E.
  - rewrite E. destruct H as (_ & _ & H). revert H.
    apply Forall_impl. intros l. now apply embedded_fresh_mono.
Qed.

Lemma createDefaultItems_list_ids_fresh (db : DB) :
  list_ids_fresh db -> list_ids_fresh (snd (createDefaultItems db)).
Proof.
  rewrite createDefaultItems_run. cbv zeta.
  apply list_ids_fresh_same_lists; simpl; [reflexivity | lia].
Qed.

Lemma seed_embedded_fresh (n : N) (id : ObjectId) (nm a b c : string)
  (v : N) :
  embedded_fresh (N.succ (N.succ (N.succ (N.succ n))))
    (mkList id nm
       [ mkItem (oid_text n) a; mkItem (oid_text (N.succ n)) b;
         mkItem (oid_text (N.succ (N.succ n))) c ] v).
Proof.
  split; simpl.
  - repeat constructor; simpl;
      intros H; repeat destruct H as [H|H]; try contradiction;
      apply oid_text_inj in H; lia.
  - repeat constructor.
    + exists n. split; [lia | reflexivity].
    + exists (N.succ n). split; [lia | reflexivity].
    + exists (N.succ (N.succ n)). split; [lia | reflexivity].
Qed.

Lemma push_embedded_fresh (n : N) (nm : string) (l : ListDoc) :
  embedded_fresh n l ->
  embedded_fresh (N.succ n) (push_item (mkItem (oid_text n) nm) l).
Proof.
  intros [H1 H2]. unfold embedded_fresh. simpl. rewrite map_app. simpl. split.
  - apply NoDup_app; [exact H1 | repeat constructor; intros [] |].
    intros x Hx [<-|[]]. now apply (drawn_below_fresh _ _ H2).
  - apply Forall_app. split.
    + apply (drawn_below_mono n); [lia | exact H2].
    + repeat constructor. exists n. split; [lia | reflexivity].
Qed.

Lemma handle_list_ids_fresh (R : Runtime) (today : string) (req : Request)
  (db : DB) :
  list_ids_fresh db -> list_ids_fresh (snd (handle R today req db)).
Proof.
  destruct req as [|p|i l|i t l|l c]; simpl; intros H.
  - rewrite get_root_run.
    destruct (Nat.eqb (List.length (items db)) 0); [|exact H].
    now apply createDefaultItems_list_ids_fresh.
  - rewrite get_customNewList_run, createDefaultItems_run.
    cbv beta iota zeta. unfold List_findOneAndUpdate_upsert. simpl.
    destruct (find (has_name (capitalize R p)) (lists db)); simpl.
    + revert H. apply list_ids_fresh_same_lists; simpl; [reflexivity | lia].
    + destruct H as (H1 & H2 & H3). unfold list_ids_fresh. simpl.
      rewrite map_app. simpl. repeat split.
      * apply NoDup_app; [exact H1 | repeat constructor; intros [] |].
        intros x Hx [<-|[]].
        apply (drawn_below_fresh (N.succ (N.succ (N.succ (next_oid db))))
                 (map list_id (lists db))); [|exact Hx].
        apply (drawn_below_mono (next_oid db)); [lia | exact H2].
      * apply Forall_app. split.
        -- apply (drawn_below_mono (next_oid db)); [lia | exact H2].
        -- repeat constructor.
           exists (N.succ (N.succ (N.succ (next_oid db)))).
           split; [lia | reflexivity].
      * apply Forall_app. split.
        -- revert H3. apply Forall_impl. intros x.
           apply embedded_fresh_mono. lia.
        -- constructor; [apply seed_embedded_fresh | constructor].
  - rewrite post_root_run.
    destruct (checked_string i) as [itemName|]; [|exact H].
    destruct (checked_string l) as [listName|]; [|exact H].
    cbv zeta. destruct (listName =? today); simpl.
    + revert H. apply list_ids_fresh_same_lists; simpl; [reflexivity | lia].
    + destruct (find (has_name listName) (lists db)) as [found|]; simpl.
      * apply (list_ids_fresh_keep db); [| | | exact H]; simpl.
        -- now apply map_update_first.
        -- lia.
        -- destruct H as (_ & _ & H3).
           induction H3 as [|x r Hx Hr IH]; simpl; [constructor|].
           destruct (list_id x =? list_id found); constructor.
           ++ now apply push_embedded_fresh.
           ++ revert Hr. apply Forall_impl. intros y.
              apply embedded_fresh_mono. lia.
           ++ revert Hx. apply embedded_fresh_mono. lia.
           ++ exact IH.
      * revert H. apply list_ids_fresh_same_lists; simpl; [reflexivity | lia].
  - rewrite post_edit_run.
    destruct i as [id|], t as [newInput|]; try exact H.
    destruct ((id =? "") || (newInput =? "")); [exact H|].
    destruct (castObjectId R id) as [oid|]; [|exact H].
    destruct (l =? today); simpl.
    + revert H. apply list_ids_fresh_same_lists; simpl; [reflexivity | lia].
    + apply (list_ids_fresh_keep db); [| | | exact H]; simpl.
      * now apply map_update_first.
      * lia.
      * destruct H as (_ & _ & H3). revert H3. apply Forall_update_first.
        intros x [X1 X2]. unfold embedded_fresh. simpl.
        now rewrite map_update_first.
  - rewrite post_delete_run.
    destruct (castObjectId R c) as [oid|]; [|exact H].
    destruct (l =? today); simpl.
    + revert H. apply list_ids_fresh_same_lists; simpl; [reflexivity | lia].
    + apply (list_ids_fresh_keep db); [| | | exact H]; simpl.
      * now apply map_update_first.
      * lia.
      * destruct H as (_ & _ & H3). revert H3. apply Forall_update_first.
        intros x X. unfold embedded_fresh. simpl. now apply filter_item_ids.
Qed.

Lemma reachable_ids_fresh (R : Runtime) (db : DB) :
  reachable R db -> item_ids_fresh db /\ list_ids_fresh db.
Proof.
  induction 1 as [|db _ [I1 I2]|db now req _ [I1 I2]].
  - split; [split; constructor | repeat split; constructor].
  - unfold startup, bind, ret.
    apply createDefaultItems_item_ids_fresh in I1.
    apply createDefaultItems_list_ids_fresh in I2.
    now destruct (createDefaultItems db).
  - split; [now apply handle_item_ids_fresh | now apply handle_list_ids_fresh].
Qed.

(** The hypothesis of the delete theorems holds in every reachable state. *)
Lemma reachable_unique_item_ids (R : Runtime) (db : DB) :
  reachable R db -> unique_item_ids db.
Proof. intros H. now destruct (reachable_ids_fresh R db H) as [[? _] _]. Qed.

(** * Further properties of the handlers *)

(** ** The home page and start-up *)

(** X1.  The home page never shows an empty list and never touches the List
    collection.  On an empty Item collection it seeds the three
    placeholders and redirects to ["/"], and the request that follows the
    redirect renders them without writing again; on a non-empty collection
    it renders the stored items under today's date string and leaves the
    store as it is. *)
Theorem get_root_seeds_then_renders (today : string) (db : DB) :
  let (res, db') := get_root today db in
  lists db' = lists db /\
  items db' <> [] /\
  match items db with
  | [] =>
      res = redirect "/" /\
      map item_name (items db') = placeholders /\
      get_root today db' = (render "list" today (items db'), db')
  | _ :: _ => res = render "list" today (items db) /\ db' = db
  end.
Proof.
  rewrite get_root_run. destruct (items db) as [|x r] eqn:E; simpl.
  - rewrite createDefaultItems_run. cbv zeta. simpl. rewrite E. simpl.
    repeat split; try discriminate.
  - rewrite E. repeat split. discriminate.
Qed.

(** X2.  Start-up leaves a non-empty Item collection and does not touch the
    List collection, so the first home page after it renders at once, with
    no redirect and no write. *)
Theorem startup_then_get_root (today : string) (db : DB) :
  let db0 := snd (startup db) in
  items db0 <> [] /\
  lists db0 = lists db /\
  get_root today db0 = (render "list" today (items db0), db0).
Proof.
  cbv zeta. unfold startup, bind, ret. rewrite createDefaultItems_run.
  cbv beta iota zeta. rewrite get_root_run. simpl.
  destruct (items db) as [|x r]; simpl; repeat split; discriminate.
Qed.

(** ** The custom list page, further *)

Lemma find_unique_name (ls : list ListDoc) (l : ListDoc) :
  NoDup (map list_name ls) -> In l ls ->
  find (has_name (list_name l)) ls = Some l.
Proof.
  induction ls as [|x r IH]; simpl; intros Hu Hin; [destruct Hin|].
  inversion Hu as [|? ? Hx Hr]; subst.
  destruct Hin as [->|Hin].
  - unfold has_name. now rewrite String.eqb_refl.
  - destruct (has_name (list_name l) x) eqn:E; [|now apply IH].
    apply has_name_true in E.
    exfalso. apply Hx. rewrite E. now apply in_map.
Qed.

(** X3.  Paths that are equal up to the case of their letters, as the
    language maps it, lead to the same List document: visiting the second
    after the first renders what the first rendered, which is the first
    document stored under their common normal form, and adds nothing to the
    List collection. *)
Theorem paths_equal_up_to_case (R : Runtime) (p q : string) (db : DB) :
  toLowerCase R p = toLowerCase R q ->
  let (res1, db1) := get_customNewList R p db in
  let (res2, db2) := get_customNewList R q db1 in
  res2 = res1 /\
  lists db2 = lists db1 /\
  exists L1 doc L2,
    lists db2 = L1 ++ doc :: L2 /\
    list_name doc = capitalize R p /\
    (forall x, In x L1 -> list_name x <> capitalize R p) /\
    res1 = render "list" (list_name doc) (list_items doc).
Proof.
  intros H. apply (capitalize_case_insensitive R) in H.
  pose proof (get_customNewList_same_document R p q db H) as S.
  destruct (get_customNewList R p db) as [res1 db1].
  destruct (get_customNewList R q db1) as [res2 db2].
  destruct S as (L1 & doc & L2 & EL & Hn & H1 & Hr1 & Hr2 & Hl).
  repeat split; trivial. exists L1, doc, L2. rewrite Hl. auto.
Qed.

Lemma paths_equal_up_to_case_witness :
  let R := sample_runtime in
  toLowerCase R "SHOPPING" = toLowerCase R "shoPPing" /\
  let (res1, db1) := get_customNewList R "SHOPPING" empty_db in
  let (res2, db2) := get_customNewList R "shoPPing" db1 in
  res2 = res1 /\
  lists db2 = lists db1 /\
  exists L1 doc L2,
    lists db2 = L1 ++ doc :: L2 /\
    list_name doc = capitalize R "SHOPPING" /\
    (forall x, In x L1 -> list_name x <> capitalize R "SHOPPING") /\
    res1 = render "list" (list_name doc) (list_items doc).
Proof.
  split; [reflexivity|].
  exact (paths_equal_up_to_case sample_runtime "SHOPPING" "shoPPing" empty_db
           eq_refl).
Defined.

(** X4.  In every reachable state each stored List document is named by the
    normal form of some path, and the page of every path with that normal
    form renders exactly that document and adds nothing to the List
    collection. *)
Theorem stored_list_is_served (R : Runtime) (db : DB) (l : ListDoc) :
  reachable R db ->
  In l (lists db) ->
  (exists p, capitalize R p = list_name l) /\
  forall p, capitalize R p = list_name l ->
    fst (get_customNewList R p db)
    = render "list" (list_name l) (list_items l) /\
    lists (snd (get_customNewList R p db)) = lists db.
Proof.
  intros Hr Hin. split.
  - pose proof (reachable_names_capitalized R db Hr) as Hn.
    unfold names_capitalized in Hn. rewrite Forall_forall in Hn.
    destruct (Hn l Hin) as (p & Hp). now exists p.
  - intros p Hp.
    pose proof (find_unique_name _ _ (reachable_unique_names R db Hr) Hin)
      as F.
    rewrite <- Hp in F at 1.
    exact (get_customNewList_stored R p l db F).
Qed.

Lemma stored_list_is_served_witness :
  let R := sample_runtime in
  let db :=
    snd (handle R (getLocalDate (mkClock Monday January 1))
           (GET_customNewList "work") empty_db) in
  let l := mkList "3" "Work" (fst (createDefaultItems empty_db)) 0 in
  reachable R db /\
  In l (lists db) /\
  capitalize R "WORK" = list_name l /\
  (exists p, capitalize R p = list_name l) /\
  forall p, capitalize R p = list_name l ->
    fst (get_customNewList R p db)
    = render "list" (list_name l) (list_items l) /\
    lists (snd (get_customNewList R p db)) = lists db.
Proof.
  cbv zeta.
  assert (H1 : reachable sample_runtime
            (snd (handle sample_runtime
                    (getLocalDate (mkClock Monday January 1))
                    (GET_customNewList "work") empty_db)))
    by apply reachable_handle, reachable_empty.
  assert (H2 : In (mkList "3" "Work" (fst (createDefaultItems empty_db)) 0)
            (lists
               (snd (handle sample_runtime
                       (getLocalDate (mkClock Monday January 1))
                       (GET_customNewList "work") empty_db))))
    by (left; reflexivity).
  repeat (split; [assumption|]).
  split; [reflexivity|].
  exact (stored_list_is_served _ _ _ H1 H2).
Defined.

(** X5.  A visit to a custom list page never changes or removes a stored
    List document (it adds at most one, at the end), and writes to the Item
    collection only to seed it when it is empty, so the Item collection is
    never empty afterwards.  When the visit both seeds the Item collection
    and creates the list, the new list embeds the very items (the same
    identifiers) that were put into the Item collection. *)
Theorem get_customNewList_effects (R : Runtime) (p : string) (db : DB) :
  let (res, db') := get_customNewList R p db in
  prefix_of (lists db) (lists db') /\
  List.length (lists db') <= S (List.length (lists db)) /\
  items db' <> [] /\
  match items db with
  | [] =>
      map item_name (items db') = placeholders /\
      ((forall x, In x (lists db) -> list_name x <> capitalize R p) ->
       res = render "list" (capitalize R p) (items db') /\
       exists doc,
         lists db' = lists db ++ [doc] /\ list_items doc = items db')
  | _ :: _ => items db' = items db
  end.
Proof.
  rewrite get_customNewList_run, createDefaultItems_run.
  cbv beta iota zeta. unfold List_findOneAndUpdate_upsert. simpl.
  destruct (find (has_name (capitalize R p)) (lists db)) as [doc|] eqn:F;
    simpl.
  - split; [exists []; now rewrite app_nil_r|]. split; [lia|].
    destruct (items db) as [|x r]; simpl.
    + repeat split; try discriminate.
      all: apply find_has_name_none in H; congruence.
    + rewrite app_nil_r. split; [discriminate | reflexivity].
  - split; [now eexists|]. split; [rewrite length_app; simpl; lia|].
    destruct (items db) as [|x r]; simpl.
    + repeat split; try discriminate. now eexists.
    + rewrite app_nil_r. split; [discriminate | reflexivity].
Qed.

(** ** Adding to a stored list *)

(** The add handler when the named list is stored and no two documents
    share an identifier: the item lands in the first document of that
    name. *)
Lemma post_root_push_run (today : string) (newItem list : FormValue)
  (itemName listName : string) (found : ListDoc) (db : DB) :
  non_blank newItem itemName ->
  non_blank list listName ->
  listName <> today ->
  NoDup (map list_id (lists db)) ->
  find (has_name listName) (lists db) = Some found ->
  exists L1 L2,
    lists db = L1 ++ found :: L2 /\
    existsb (has_name listName) L1 = false /\
    list_name found = listName /\
    post_root today newItem list db =
    (redirect ("/" ++ listName)%string,
     mkDB (items db)
       (L1 ++ push_item (mkItem (oid_text (next_oid db)) itemName) found
           :: L2)
       (N.succ (next_oid db))).
Proof.
  intros Hi Hl Ht Hu Hf. rewrite post_root_run.
  rewrite (checked_string_non_blank _ _ Hi).
  rewrite (checked_string_non_blank _ _ Hl). cbv zeta.
  apply String.eqb_neq in Ht. rewrite Ht, Hf.
  destruct (find_has_name_some _ _ _ Hf) as (L1 & L2 & EL & Hn & H1 & _).
  exists L1, L2. repeat split; trivial.
  rewrite EL. f_equal. f_equal.
  rewrite EL, map_app in Hu. simpl in Hu.
  apply NoDup_remove_2 in Hu.
  apply (update_first_at (fun l => list_id l =? list_id found)).
  - apply existsb_false_forall. intros y Hy.
    apply String.eqb_neq. intros E. apply Hu.
    apply in_or_app. left. rewrite <- E. now apply in_map.
  - apply String.eqb_refl.
Qed.

(** X6.  An add request with non-blank fields, naming a stored list other
    than today's, on a store where no two List documents share an
    identifier: the new item is appended to the array of the first document
    of that name, whose version goes up by one; every other document and
    the Item collection stay as they were, and the answer is a redirect to
    the page of that list. *)
Theorem post_root_pushes (today : string) (newItem list : FormValue)
  (itemName listName : string) (L1 : Datatypes.list ListDoc)
  (found : ListDoc) (L2 : Datatypes.list ListDoc) (db : DB) :
  non_blank newItem itemName ->
  non_blank list listName ->
  listName <> today ->
  NoDup (map list_id (lists db)) ->
  lists db = L1 ++ found :: L2 ->
  list_name found = listName ->
  (forall x, In x L1 -> list_name x <> listName) ->
  let item := mkItem (oid_text (next_oid db)) itemName in
  let (res, db') := post_root today newItem list db in
  res = redirect ("/" ++ listName)%string /\
  items db' = items db /\
  lists db'
  = L1 ++ mkList (list_id found) (list_name found)
            (list_items found ++ [item]) (N.succ (list_v found)) :: L2.
Proof.
  intros Hi Hl Ht Hu EL Hn H1. cbv zeta.
  assert (Hf : find (has_name listName) (lists db) = Some found)
    by (rewrite EL; now apply find_first_named).
  destruct (post_root_push_run today newItem list itemName listName found db
              Hi Hl Ht Hu Hf) as (K1 & K2 & EK & G1 & _ & ->).
  simpl. repeat split.
  assert (K1 = L1 /\ K2 = L2) as [-> ->]; [|reflexivity].
  clear -EL EK G1 H1 Hn. rewrite EL in EK. clear EL.
  revert K1 EK G1. induction L1 as [|y r IH]; intros [|k K1] EK G1;
    simpl in *.
  - now injection EK as ->.
  - injection EK as <- _. apply has_name_true in Hn.
    apply orb_false_iff in G1 as [G1 _]. congruence.
  - injection EK as -> _. exfalso. now apply (H1 found); [left|].
  - injection EK as -> EK. apply orb_false_iff in G1 as [_ G1].
    destruct (IH (fun x Hx => H1 x (or_intror Hx)) K1 EK G1) as [-> ->].
    now split.
Qed.

Lemma post_root_pushes_witness :
  let today := getLocalDate (mkClock Monday January 1) in
  let db := snd (get_customNewList sample_runtime "work" empty_db) in
  let found := mkList "3" "Work" (fst (createDefaultItems empty_db)) 0 in
  let item := mkItem "4" "Write report" in
  non_blank (VString "Write report") "Write report" /\
  non_blank (VString "Work") "Work" /\
  "Work" <> today /\
  NoDup (map list_id (lists db)) /\
  lists db = [] ++ found :: [] /\
  list_name found = "Work" /\
  (forall x, In x [] -> list_name x <> "Work") /\
  let (res, db') :=
    post_root today (VString "Write report") (VString "Work") db in
  res = redirect "/Work" /\
  items db' = items db /\
  lists db' = [] ++ mkList "3" "Work" (list_items found ++ [item]) 1 :: [].
Proof.
  cbv zeta.
  assert (H1 : non_blank (VString "Write report") "Write report")
    by (split; reflexivity).
  assert (H2 : non_blank (VString "Work") "Work") by (split; reflexivity).
  assert (H3 : "Work" <> getLocalDate (mkClock Monday January 1))
    by discriminate.
  assert (H4 : NoDup (map list_id
                        (lists (snd (get_customNewList sample_runtime "work"
                                       empty_db)))))
    by (simpl; repeat constructor; intros []).
  assert (H5 : lists (snd (get_customNewList sample_runtime "work" empty_db))
               = [] ++ mkList "3" "Work" (fst (createDefaultItems empty_db)) 0
                       :: [])
    by reflexivity.
  assert (H6 : list_name
                 (mkList "3" "Work" (fst (createDefaultItems empty_db)) 0)
               = "Work") by reflexivity.
  assert (H7 : forall x : ListDoc, In x [] -> list_name x <> "Work")
    by (intros x []).
  repeat (split; [assumption|]).
  exact (post_root_pushes _ _ _ _ _ _ _ _ _ H1 H2 H3 H4 H5 H6 H7).
Defined.

Lemma targeted_stored (today listName : string) (its : list Item) (db : DB) :
  (listName =? today) = false ->
  targeted today listName db = Some its ->
  exists found,
    find (has_name listName) (lists db) = Some found /\
    list_items found = its.
Proof.
  unfold targeted. intros ->.
  change (fun l : ListDoc => list_name l =? listName)
    with (has_name listName).
  destruct (find (has_name listName) (lists db)) as [found|]; [|discriminate].
  simpl. intros [= <-]. now exists found.
Qed.

Lemma targeted_first_named (today listName : string) (L1 : list ListDoc)
  (l : ListDoc) (L2 : list ListDoc) (n : N) (its : list Item) :
  (listName =? today) = false ->
  existsb (has_name listName) L1 = false ->
  list_name l = listName ->
  targeted today listName (mkDB its (L1 ++ l :: L2) n)
  = Some (list_items l).
Proof.
  intros Et H1 Hn. unfold targeted. rewrite Et. simpl.
  change (fun l : ListDoc => list_name l =? listName)
    with (has_name listName).
  rewrite find_at; [reflexivity | exact H1 | now apply has_name_true].
Qed.

(** X7.  In every reachable state, an item added with non-blank fields to a
    list that exists (today's list, or a stored list under its exact name)
    becomes the last item of that list, and a request for the page of the
    list that comes next (the home page for today's list, the page of any
    path whose normal form is the list's name otherwise) renders the list
    with the new item at its end. *)
Theorem added_item_shows_last (R : Runtime) (today : string)
  (newItem list : FormValue) (itemName listName : string)
  (its : Datatypes.list Item) (db : DB) :
  reachable R db ->
  non_blank newItem itemName ->
  non_blank list listName ->
  targeted today listName db = Some its ->
  let item := mkItem (oid_text (next_oid db)) itemName in
  let (res, db1) := post_root today newItem list db in
  res = redirect (if listName =? today then "/" else "/" ++ listName)%string /\
  targeted today listName db1 = Some (its ++ [item]) /\
  if listName =? today
  then fst (get_root today db1) = render "list" listName (its ++ [item])
  else forall p, capitalize R p = listName ->
         fst (get_customNewList R p db1)
         = render "list" listName (its ++ [item]).
Proof.
  intros Hr Hi Hl Ht. cbv zeta.
  destruct (listName =? today) eqn:Et.
  - apply String.eqb_eq in Et. subst listName.
    rewrite post_root_run.
    rewrite (checked_string_non_blank _ _ Hi).
    rewrite (checked_string_non_blank _ _ Hl). cbv zeta.
    rewrite String.eqb_refl.
    unfold targeted in *. rewrite String.eqb_refl in *. simpl in *.
    injection Ht as <-. rewrite get_root_run. simpl.
    rewrite length_app. simpl.
    replace (List.length (items db) + 1) with (S (List.length (items db)))
      by lia.
    now repeat split.
  - destruct (targeted_stored _ _ _ _ Et Ht) as (found & Hf & <-).
    destruct (reachable_ids_fresh R db Hr) as (_ & Hu & _).
    assert (Hne : listName <> today) by now apply String.eqb_neq.
    destruct (post_root_push_run today newItem list itemName listName found db
                Hi Hl Hne Hu Hf) as (L1 & L2 & EL & H1 & Hn & ->).
    repeat split.
    + now rewrite targeted_first_named.
    + intros p Hp.
      match goal with |- fst (get_customNewList _ _ ?d) = _ =>
        destruct (get_customNewList_stored R p
                    (push_item (mkItem (oid_text (next_oid db)) itemName)
                       found) d) as [G _] end.
      * simpl. rewrite Hp. apply find_at; [exact H1|].
        now apply has_name_true.
      * rewrite G. simpl. now rewrite Hn.
Qed.

Lemma added_item_shows_last_witness :
  let R := sample_runtime in
  let today := getLocalDate (mkClock Monday January 1) in
  let db := snd (handle R today (GET_customNewList "work") empty_db) in
  let its := fst (createDefaultItems empty_db) in
  let item := mkItem "4" "Write report" in
  reachable R db /\
  non_blank (VString "Write report") "Write report" /\
  non_blank (VString "Work") "Work" /\
  targeted today "Work" db = Some its /\
  let (res, db1) :=
    post_root today (VString "Write report") (VString "Work") db in
  res = redirect "/Work" /\
  targeted today "Work" db1 = Some (its ++ [item]) /\
  forall p, capitalize R p = "Work" ->
    fst (get_customNewList R p db1) = render "list" "Work" (its ++ [item]).
Proof.
  cbv zeta.
  assert (H1 : reachable sample_runtime
            (snd (handle sample_runtime
                    (getLocalDate (mkClock Monday January 1))
                    (GET_customNewList "work") empty_db)))
    by apply reachable_handle, reachable_empty.
  assert (H2 : non_blank (VString "Write report") "Write report")
    by (split; reflexivity).
  assert (H3 : non_blank (VString "Work") "Work") by (split; reflexivity).
  assert (H4 : targeted (getLocalDate (mkClock Monday January 1)) "Work"
                 (snd (handle sample_runtime
                         (getLocalDate (mkClock Monday January 1))
                         (GET_customNewList "work") empty_db))
               = Some (fst (createDefaultItems empty_db)))
    by reflexivity.
  repeat (split; [assumption|]).
  exact (added_item_shows_last sample_runtime _ _ _ _ _ _ _ H1 H2 H3 H4).
Defined.

(** X8.  In every reachable state, adding an item to a list that exists and
    then deleting it by its identifier, on the same list, gives back the
    Item collection and the items of every list exactly as they were
    before the add; the List collection is the same but for the version of
    the list added to, which the push has raised by one. *)
Theorem add_then_delete_restores (R : Runtime) (today : string)
  (newItem list : FormValue) (itemName listName : string)
  (its : Datatypes.list Item) (db : DB) :
  reachable R db ->
  non_blank newItem itemName ->
  non_blank list listName ->
  targeted today listName db = Some its ->
  castObjectId R (oid_text (next_oid db)) = Some (oid_text (next_oid db)) ->
  let db1 := snd (post_root today newItem list db) in
  let db2 := snd (post_delete R today listName (oid_text (next_oid db)) db1) in
  targeted today listName db1 <> Some its /\
  items db2 = items db /\
  targeted today listName db2 = Some its /\
  if listName =? today
  then lists db2 = lists db
  else bumped_in listName (lists db) (lists db2).
Proof.
  intros Hr Hi Hl Ht Hc. cbv zeta.
  destruct (reachable_ids_fresh R db Hr) as ((_ & Hfi) & Hu & _ & Hemb).
  rewrite post_delete_run, Hc.
  destruct (listName =? today) eqn:Et.
  - apply String.eqb_eq in Et. subst listName.
    rewrite post_root_run.
    rewrite (checked_string_non_blank _ _ Hi).
    rewrite (checked_string_non_blank _ _ Hl). cbv zeta.
    rewrite String.eqb_refl.
    unfold targeted in *. rewrite String.eqb_refl in *. simpl in *.
    injection Ht as <-.
    assert (E : remove_first (has_id (oid_text (next_oid db)))
                  (items db ++ [mkItem (oid_text (next_oid db)) itemName])
                = items db).
    { rewrite remove_first_at;
        [apply app_nil_r | now apply fresh_id_absent |].
      apply has_id_true. reflexivity. }
    rewrite E. repeat split.
    intros [= E']. apply (f_equal (@List.length Item)) in E'.
    rewrite length_app in E'. simpl in E'. lia.
  - destruct (targeted_stored _ _ _ _ Et Ht) as (found & Hf & <-).
    assert (Hne : listName <> today) by now apply String.eqb_neq.
    destruct (post_root_push_run today newItem list itemName listName found db
                Hi Hl Hne Hu Hf) as (L1 & L2 & EL & H1 & Hn & ->).
    simpl.
    assert (E : update_first (has_name listName)
                  (set_list_items
                     (filter (fun it =>
                                negb (has_id (oid_text (next_oid db)) it))))
                  (L1 ++ push_item (mkItem (oid_text (next_oid db)) itemName)
                           found :: L2)
                = L1 ++ mkList (list_id found) (list_name found)
                          (list_items found) (N.succ (list_v found)) :: L2).
    { rewrite update_first_at; [| exact H1 | now apply has_name_true].
      f_equal. f_equal. unfold set_list_items, push_item. simpl.
      rewrite filter_app. simpl.
      replace (has_id (oid_text (next_oid db))
                 (mkItem (oid_text (next_oid db)) itemName))
        with true by (symmetry; apply has_id_true; reflexivity).
      simpl. rewrite app_nil_r.
      rewrite filter_miss; [reflexivity|].
      apply fresh_id_absent.
      rewrite Forall_forall in Hemb. apply (Hemb found).
      rewrite EL. apply in_or_app. right. now left. }
    rewrite E. repeat split.
    + rewrite targeted_first_named by assumption. simpl.
      intros [= E']. apply (f_equal (@List.length Item)) in E'.
      rewrite length_app in E'. simpl in E'. lia.
    + now rewrite targeted_first_named.
    + rewrite EL. constructor; [exact Hn | now apply no_has_name].
Qed.

Lemma add_then_delete_restores_witness :
  let R := sample_runtime in
  let today := getLocalDate (mkClock Monday January 1) in
  let db := snd (handle R today (GET_customNewList "work") empty_db) in
  let its := fst (createDefaultItems empty_db) in
  reachable R db /\
  non_blank (VString "Write report") "Write report" /\
  non_blank (VString "Work") "Work" /\
  targeted today "Work" db = Some its /\
  castObjectId R (oid_text (next_oid db)) = Some (oid_text (next_oid db)) /\
  let db1 :=
    snd (post_root today (VString "Write report") (VString "Work") db) in
  let db2 := snd (post_delete R today "Work" (oid_text (next_oid db)) db1) in
  targeted today "Work" db1 <> Some its /\
  items db2 = items db /\
  targeted today "Work" db2 = Some its /\
  bumped_in "Work" (lists db) (lists db2).
Proof.
  cbv zeta.
  assert (H1 : reachable sample_runtime
            (snd (handle sample_runtime
                    (getLocalDate (mkClock Monday January 1))
                    (GET_customNewList "work") empty_db)))
    by apply reachable_handle, reachable_empty.
  assert (H2 : non_blank (VString "Write report") "Write report")
    by (split; reflexivity).
  assert (H3 : non_blank (VString "Work") "Work") by (split; reflexivity).
  assert (H4 : targeted (getLocalDate (mkClock Monday January 1)) "Work"
                 (snd (handle sample_runtime
                         (getLocalDate (mkClock Monday January 1))
                         (GET_customNewList "work") empty_db))
               = Some (fst (createDefaultItems empty_db)))
    by reflexivity.
  assert (H5 : castObjectId sample_runtime
                 (oid_text
                    (next_oid
                       (snd (handle sample_runtime
                               (getLocalDate (mkClock Monday January 1))
                               (GET_customNewList "work") empty_db))))
               = Some
                   (oid_text
                      (next_oid
                         (snd (handle sample_runtime
                                 (getLocalDate (mkClock Monday January 1))
                                 (GET_customNewList "work") empty_db)))))
    by reflexivity.
  repeat (split; [assumption|]).
  exact (add_then_delete_restores sample_runtime _ _ _ _ _ _ _
           H1 H2 H3 H4 H5).
Defined.

(** X9.  The add handler only ever appends: whatever the request, the Item
    collection afterwards is the old one with at most one item added at its
    end, and the List collection holds the same documents (same identifiers
    and names, in the same order), each with its old array possibly
    extended at the end. *)
Theorem post_root_only_appends (today : string) (newItem list : FormValue)
  (db : DB) :
  let db' := snd (post_root today newItem list db) in
  prefix_of (items db) (items db') /\
  List.length (items db') <= S (List.length (items db)) /\
  Forall2 grown (lists db) (lists db').
Proof.
  cbv zeta. rewrite post_root_run.
  assert (G : forall x, grown x x).
  { intros x. repeat split. exists []. now rewrite app_nil_r. }
  assert (Same : forall ls, Forall2 grown ls ls).
  { induction ls; constructor; auto. }
  assert (P : forall (l : Datatypes.list Item), prefix_of l l).
  { intros l. exists []. now rewrite app_nil_r. }
  destruct (checked_string newItem) as [itemName|]; simpl; [|auto].
  destruct (checked_string list) as [listName|]; simpl; [|auto].
  destruct (listName =? today); simpl.
  - repeat split; [now eexists | rewrite length_app; simpl; lia | auto].
  - destruct (find (has_name listName) (lists db)) as [found|]; simpl;
      [|auto].
    repeat split; [auto | lia |].
    apply Forall2_update_first; [exact G|].
    intros x. repeat split. simpl. now eexists.
Qed.

(** ** Editing, further *)

(** X10.  The edit handler answers 400 ["Missing updated item ID or title"]
    exactly when the identifier or the title is absent or the empty string,
    and 500 ["Failed to edit item"] when both are there and the mapper
    cannot cast the identifier; in both cases the store is untouched.  In
    every other case it answers with a redirect, to ["/"] for today's list
    and to the page of the named list otherwise, also when nothing
    matched. *)
Theorem post_edit_answers (R : Runtime) (today : string)
  (updatedItemId updatedItemTitle : option string) (customeListName : string)
  (db : DB) :
  let (res, db') :=
    post_edit R today updatedItemId updatedItemTitle customeListName db in
  match updatedItemId, updatedItemTitle with
  | Some id, Some title =>
      if (id =? "") || (title =? "")
      then res = status_send 400 "Missing updated item ID or title" /\
           db' = db
      else
        match castObjectId R id with
        | None => res = status_send 500 "Failed to edit item" /\ db' = db
        | Some _ =>
            res = redirect (if customeListName =? today then "/"
                            else "/" ++ customeListName)%string
        end
  | _, _ =>
      res = status_send 400 "Missing updated item ID or title" /\ db' = db
  end.
Proof.
  rewrite post_edit_run.
  destruct updatedItemId as [id|], updatedItemTitle as [newInput|]; auto.
  destruct ((id =? "") || (newInput =? "")); [auto|].
  destruct (castObjectId R id); [|auto].
  now destruct (customeListName =? today).
Qed.

(** X11.  An edit never adds, removes or reorders anything: whatever the
    request, the identifiers of the Item collection, the identifiers and
    names of the List documents and the identifiers inside every embedded
    array are afterwards what they were, in the same order. *)
Theorem post_edit_keeps_identifiers (R : Runtime) (today : string)
  (updatedItemId updatedItemTitle : option string) (customeListName : string)
  (db : DB) :
  let db' :=
    snd (post_edit R today updatedItemId updatedItemTitle customeListName db)
  in
  map item_id (items db') = map item_id (items db) /\
  map list_id (lists db') = map list_id (lists db) /\
  map list_name (lists db') = map list_name (lists db) /\
  map (fun l => map item_id (list_items l)) (lists db')
  = map (fun l => map item_id (list_items l)) (lists db) /\
  next_oid db' = next_oid db.
Proof.
  cbv zeta. rewrite post_edit_run.
  destruct updatedItemId as [id|], updatedItemTitle as [newInput|];
    try (now repeat split).
  destruct ((id =? "") || (newInput =? "")); [now repeat split|].
  destruct (castObjectId R id) as [oid|]; [|now repeat split].
  destruct (customeListName =? today); simpl; repeat split;
    try (now apply map_update_first).
  apply map_update_first. intros x. simpl. now apply map_update_first.
Qed.

Lemma rename_twice (id : ObjectId) (t1 t2 : string) (its : list Item) :
  update_first (has_id id) (set_item_name t2)
    (update_first (has_id id) (set_item_name t1) its)
  = update_first (has_id id) (set_item_name t2) its.
Proof.
  rewrite update_first_twice by reflexivity.
  now apply update_first_ext.
Qed.

Lemma existsb_rename (id : ObjectId) (t : string) (its : list Item) :
  existsb (has_id id) (update_first (has_id id) (set_item_name t) its)
  = existsb (has_id id) its.
Proof.
  induction its as [|x r IH]; simpl; [reflexivity|].
  destruct (has_id id x) eqn:E; simpl.
  - unfold has_id in *. simpl. now rewrite E.
  - now rewrite E, IH.
Qed.

(** X12.  The last edit wins: two edits of the same identifier on the same
    list, the second with a title that is not empty, leave the store
    exactly as the second edit alone would.  In particular an edit repeated
    with the same title changes nothing more. *)
Theorem post_edit_last_wins (R : Runtime) (today id t1 t2 listName : string)
  (db : DB) :
  t2 <> "" ->
  snd (post_edit R today (Some id) (Some t2) listName
         (snd (post_edit R today (Some id) (Some t1) listName db)))
  = snd (post_edit R today (Some id) (Some t2) listName db).
Proof.
  intros H2. apply String.eqb_neq in H2.
  rewrite (post_edit_run R today (Some id) (Some t1) listName db).
  destruct ((id =? "") || (t1 =? "")) eqn:E1; [reflexivity|].
  apply orb_false_iff in E1 as [Hid _].
  destruct (castObjectId R id) as [oid|] eqn:Ec; [|reflexivity].
  rewrite !post_edit_run. rewrite Hid, H2, Ec. simpl.
  destruct (listName =? today); simpl.
  - now rewrite rename_twice.
  - f_equal.
    rewrite update_first_twice.
    + apply update_first_ext. intros x. unfold set_list_items. simpl.
      now rewrite rename_twice.
    + intros x. unfold has_name. simpl. now rewrite existsb_rename.
Qed.

Lemma post_edit_last_wins_witness :
  let R := sample_runtime in
  let today := getLocalDate (mkClock Monday January 1) in
  let db := snd (get_customNewList R "work" empty_db) in
  "Call home" <> "" /\
  snd (post_edit R today (Some "1") (Some "Call home") "Work"
         (snd (post_edit R today (Some "1") (Some "Call office") "Work" db)))
  = snd (post_edit R today (Some "1") (Some "Call home") "Work" db).
Proof.
  cbv zeta.
  assert (H : "Call home" <> "") by discriminate.
  split; [exact H|].
  exact (post_edit_last_wins sample_runtime _ "1" "Call office" "Call home"
           "Work" _ H).
Defined.

(** ** Deleting, further *)

(** X13.  Deleting is idempotent: with no identifier twice in the Item
    collection, the same delete request handled a second time leaves the
    store exactly as the first left it. *)
Theorem post_delete_twice (R : Runtime) (today listName checkbox : string)
  (db : DB) :
  unique_item_ids db ->
  snd (post_delete R today listName checkbox
         (snd (post_delete R today listName checkbox db)))
  = snd (post_delete R today listName checkbox db).
Proof.
  intros Hu. rewrite !post_delete_run.
  destruct (castObjectId R checkbox) as [oid|]; [|reflexivity].
  destruct (listName =? today); simpl.
  - f_equal. rewrite (remove_first_filter _ _ Hu).
    apply remove_first_miss, existsb_filter_negb.
  - f_equal. rewrite update_first_twice by reflexivity.
    apply update_first_ext. intros x. unfold set_list_items. simpl.
    now rewrite filter_idem.
Qed.

Lemma post_delete_twice_witness :
  let R := sample_runtime in
  let today := getLocalDate (mkClock Monday January 1) in
  let db := snd (get_customNewList R "work" empty_db) in
  unique_item_ids db /\
  snd (post_delete R today today "1" (snd (post_delete R today today "1" db)))
  = snd (post_delete R today today "1" db).
Proof.
  cbv zeta.
  assert (H : unique_item_ids
                (snd (get_customNewList sample_runtime "work" empty_db))).
  { unfold unique_item_ids. simpl.
    repeat constructor; simpl; intuition discriminate. }
  split; [exact H|].
  exact (post_delete_twice sample_runtime _ _ "1" _ H).
Defined.

(** X14.  A delete only ever takes items away: whatever the request, the
    Item collection afterwards is the old one with at most one item
    dropped, the List documents keep their identifiers and names, and every
    item left in a collection or an embedded array was there before, with
    the same name. *)
Theorem post_delete_only_removes (R : Runtime)
  (today listName checkbox : string) (db : DB) :
  let db' := snd (post_delete R today listName checkbox db) in
  (forall it, In it (items db') -> In it (items db)) /\
  List.length (items db) <= S (List.length (items db')) /\
  map list_id (lists db') = map list_id (lists db) /\
  map list_name (lists db') = map list_name (lists db) /\
  Forall2 (fun l l' => forall it, In it (list_items l') -> In it (list_items l))
    (lists db) (lists db').
Proof.
  cbv zeta. rewrite post_delete_run.
  assert (Same : forall ls : list ListDoc,
            Forall2 (fun l l' => forall it,
                       In it (list_items l') -> In it (list_items l)) ls ls).
  { induction ls; constructor; auto. }
  destruct (castObjectId R checkbox) as [oid|]; simpl;
    [|repeat split; auto].
  destruct (listName =? today); simpl.
  - repeat split; auto.
    + intros it. destruct (existsb (has_id oid) (items db)) eqn:E.
      * destruct (first_match _ _ E) as (l1 & x & l2 & -> & _ & _ & _ & _ & ->).
        intros H. apply in_app_or in H. apply in_or_app.
        destruct H; [now left | right; now right].
      * now rewrite remove_first_miss.
    + destruct (existsb (has_id oid) (items db)) eqn:E.
      * destruct (first_match _ _ E) as (l1 & x & l2 & -> & _ & _ & _ & _ & ->).
        rewrite !length_app. simpl. lia.
      * rewrite remove_first_miss by exact E. lia.
  - repeat split; auto; try (now apply map_update_first).
    apply Forall2_update_first; [auto|].
    intros x it. simpl. intros H. now apply filter_In in H.
Qed.

(** ** The List collection over time *)

(** X15.  No request deletes, renames or reorders a List document: after
    any request the identifiers and names of the stored documents are those
    from before, in the same order, followed by at most one new document;
    and only a visit to a custom list page can add one. *)
Theorem lists_only_grow (R : Runtime) (today : string) (req : Request)
  (db : DB) :
  let db' := snd (handle R today req db) in
  let key l := (list_id l, list_name l) in
  prefix_of (map key (lists db)) (map key (lists db')) /\
  match req with
  | GET_customNewList p =>
      List.length (lists db') <= S (List.length (lists db))
  | _ => map key (lists db') = map key (lists db)
  end.
Proof.
  cbv zeta.
  assert (P : forall l : list (ObjectId * string), prefix_of l l).
  { intros l. exists []. now rewrite app_nil_r. }
  destruct req as [|p|i l|i t l|l c]; simpl.
  - rewrite get_root_run.
    destruct (Nat.eqb (List.length (items db)) 0); simpl;
      [rewrite createDefaultItems_run; simpl|]; auto.
  - rewrite get_customNewList_run, createDefaultItems_run.
    cbv beta iota zeta. unfold List_findOneAndUpdate_upsert. simpl.
    destruct (find (has_name (capitalize R p)) (lists db)); simpl.
    + split; [auto | lia].
    + rewrite map_app, length_app. simpl. split; [now eexists | lia].
  - rewrite post_root_run.
    destruct (checked_string i); [|auto].
    destruct (checked_string l) as [listName|]; [|auto].
    cbv zeta. destruct (listName =? today); [auto|].
    destruct (find (has_name listName) (lists db)); [|auto]. simpl.
    rewrite map_update_first by reflexivity. auto.
  - rewrite post_edit_run.
    destruct i as [id|], t as [newInput|]; auto.
    destruct ((id =? "") || (newInput =? "")); [auto|].
    destruct (castObjectId R id); [|auto].
    destruct (l =? today); [auto|]. simpl.
    rewrite map_update_first by reflexivity. auto.
  - rewrite post_delete_run.
    destruct (castObjectId R c); [|auto].
    destruct (l =? today); [auto|]. simpl.
    rewrite map_update_first by reflexivity. auto.
Qed.

(** ** Date strings and list names *)

Lemma all_bytes_app (p : ascii -> bool) (a b : string) :
  all_bytes p (a ++ b)%string = all_bytes p a && all_bytes p b.
Proof.
  induction a as [|c r IH]; simpl; [reflexivity|].
  now rewrite IH, andb_assoc.
Qed.

(** A date string starts with a capital and a small letter, and has the
    capital of its month further on. *)
Lemma getLocalDate_shape (now : Clock) :
  exists a b rest,
    getLocalDate now = String a (String b rest) /\
    is_lower b = true /\
    no_upper rest = false.
Proof.
  destruct now as [w m d]. unfold getLocalDate. simpl weekday. simpl month.
  destruct w, m; eexists _, _, _; (split; [reflexivity|]);
    split; reflexivity.
Qed.

(** No text has a date string for its normal form: the first symbol is in
    upper case, so it is one letter at most, and what follows it is in
    lower case, so it cannot hold the capital of the month. *)
Lemma capitalize_not_date (R : Runtime) (p : string) (now : Clock) :
  case_facts R -> capitalize R p <> getLocalDate now.
Proof.
  intros (Ha & Hb & Hc). unfold capitalize, upperFirst.
  specialize (Ha (toLowerCase R p)). specialize (Hb p).
  destruct (splitFirst R (toLowerCase R p)) as [chr tr].
  rewrite <- Ha in Hb. unfold no_upper in Hb.
  rewrite all_bytes_app in Hb. apply andb_prop in Hb as [_ Hb].
  fold (no_upper tr) in Hb. specialize (Hc chr).
  destruct (getLocalDate_shape now) as (a & b & rest & -> & Hl & Hu).
  destruct (toUpperCase R chr) as [|c1 [|c2 u]]; simpl; intros E.
  - rewrite E in Hb. unfold no_upper in *. cbn [all_bytes] in Hb.
    apply andb_prop in Hb as [_ Hb]. apply andb_prop in Hb as [_ Hb].
    congruence.
  - injection E as _ E. rewrite E in Hb.
    unfold no_upper in *. cbn [all_bytes] in Hb.
    apply andb_prop in Hb as [_ Hb]. congruence.
  - injection E as _ E _. subst c2.
    unfold no_lower in Hc. cbn [all_bytes] in Hc.
    apply andb_prop in Hc as [_ Hc]. apply andb_prop in Hc as [Hc _].
    rewrite Hl in Hc. discriminate Hc.
Qed.

Lemma reachable_no_date_name (R : Runtime) (now : Clock) (db : DB) :
  case_facts R -> reachable R db ->
  find (has_name (getLocalDate now)) (lists db) = None.
Proof.
  intros HR Hr. apply find_has_name_none. intros l Hin E.
  pose proof (reachable_names_capitalized R db Hr) as Hn.
  unfold names_capitalized in Hn. rewrite Forall_forall in Hn.
  destruct (Hn l Hin) as (p & Hp). rewrite E in Hp.
  symmetry in Hp. now apply capitalize_not_date in Hp.
Qed.

(** X16.  No path has a date string for its normal form, so in every
    reachable state no List document is named by a date string: the normal
    form is a first symbol in upper case followed by text in lower case,
    and a date string has a small letter in second place and the capital of
    its month further on.  Today's date string therefore never names a
    stored list. *)
Theorem no_list_named_by_date (R : Runtime) (now : Clock) (db : DB) :
  case_facts R ->
  reachable R db ->
  (forall p, capitalize R p <> getLocalDate now) /\
  (forall l, In l (lists db) -> list_name l <> getLocalDate now).
Proof.
  intros HR Hr. split.
  - intros p. now apply capitalize_not_date.
  - apply find_has_name_none. now apply (reachable_no_date_name R).
Qed.

Lemma no_list_named_by_date_witness :
  let R := sample_runtime in
  let now := mkClock Monday January 1 in
  let db :=
    snd (handle R (getLocalDate now) (GET_customNewList (getLocalDate now))
           empty_db) in
  case_facts R /\
  reachable R db /\
  map list_name (lists db) = ["Monday, january 1"] /\
  (forall p, capitalize R p <> getLocalDate now) /\
  (forall l, In l (lists db) -> list_name l <> getLocalDate now).
Proof.
  cbv zeta.
  assert (H : reachable sample_runtime
           (snd (handle sample_runtime
                   (getLocalDate (mkClock Monday January 1))
                   (GET_customNewList (getLocalDate (mkClock Monday January 1)))
                   empty_db)))
    by apply reachable_handle, reachable_empty.
  split; [exact sample_case_facts|].
  split; [exact H|]. split; [reflexivity|].
  exact (no_list_named_by_date sample_runtime (mkClock Monday January 1) _
           sample_case_facts H).
Defined.

(** X17.  A request that carries the date string of another day than
    today's changes neither collection, in every reachable state: an add
    with a non-blank item is refused with 400 ["List not found!"], and an
    edit or a delete finds no list of that name and leaves the store as it
    is. *)
Theorem stale_date_changes_nothing (R : Runtime) (now other : Clock)
  (newItem : FormValue) (itemName : string)
  (updatedItemId updatedItemTitle : option string)
  (checkbox : string) (db : DB) :
  case_facts R ->
  reachable R db ->
  getLocalDate other <> getLocalDate now ->
  non_blank newItem itemName ->
  let today := getLocalDate now in
  let stale := getLocalDate other in
  post_root today newItem (VString stale) db
  = (status_send 400 "List not found!",
     mkDB (items db) (lists db) (N.succ (next_oid db))) /\
  snd (post_edit R today updatedItemId updatedItemTitle stale db) = db /\
  snd (post_delete R today stale checkbox db) = db.
Proof.
  intros HR Hr Hd Hi. cbv zeta.
  pose proof (reachable_no_date_name R other db HR Hr) as F.
  assert (E : existsb (has_name (getLocalDate other)) (lists db) = false)
    by now rewrite find_existsb, F.
  apply String.eqb_neq in Hd as Hd'.
  repeat split.
  - rewrite (post_root_no_such_list _ _ _ _ _
               (getLocalDate_non_blank other) Hd F).
    now rewrite (checked_string_non_blank _ _ Hi).
  - rewrite post_edit_run.
    destruct updatedItemId as [id|], updatedItemTitle as [newInput|];
      try reflexivity.
    destruct ((id =? "") || (newInput =? "")); [reflexivity|].
    destruct (castObjectId R id) as [oid|]; [|reflexivity].
    rewrite Hd'. simpl. rewrite update_first_miss; [apply db_eta|].
    apply existsb_false_forall. intros x Hx.
    rewrite existsb_false_forall in E. now rewrite (E x Hx).
  - rewrite post_delete_run, Hd'.
    destruct (castObjectId R checkbox) as [oid|]; [|reflexivity]. simpl.
    rewrite update_first_miss by exact E. apply db_eta.
Qed.

Lemma stale_date_changes_nothing_witness :
  let R := sample_runtime in
  let now := mkClock Tuesday January 2 in
  let other := mkClock Monday January 1 in
  let db := snd (handle R (getLocalDate other) GET_root empty_db) in
  case_facts R /\
  reachable R db /\
  getLocalDate other <> getLocalDate now /\
  non_blank (VString "Buy milk") "Buy milk" /\
  post_root (getLocalDate now) (VString "Buy milk")
    (VString (getLocalDate other)) db
  = (status_send 400 "List not found!",
     mkDB (items db) (lists db) (N.succ (next_oid db))) /\
  snd (post_edit R (getLocalDate now) (Some "1") (Some "Call home")
         (getLocalDate other) db) = db /\
  snd (post_delete R (getLocalDate now) (getLocalDate other) "1" db) = db.
Proof.
  cbv zeta.
  assert (H1 : reachable sample_runtime
            (snd (handle sample_runtime
                    (getLocalDate (mkClock Monday January 1)) GET_root
                    empty_db)))
    by apply reachable_handle, reachable_empty.
  assert (H2 : getLocalDate (mkClock Monday January 1)
               <> getLocalDate (mkClock Tuesday January 2))
    by discriminate.
  assert (H3 : non_blank (VString "Buy milk") "Buy milk")
    by (split; reflexivity).
  split; [exact sample_case_facts|].
  repeat (split; [assumption|]).
  exact (stale_date_changes_nothing sample_runtime (mkClock Tuesday January 2)
           (mkClock Monday January 1) (VString "Buy milk") "Buy milk"
           (Some "1") (Some "Call home") "1" _ sample_case_facts H1 H2 H3).
Defined.

(** ** Identifiers *)

(** X18.  With every new document given a fresh identifier, in every
    reachable state no two items of the Item collection share an
    identifier, no two List documents do, and no embedded array holds an
    identifier twice, although the seeded items are stored both in the Item
    collection and in a new list under the same identifiers. *)
Theorem identifiers_unique (R : Runtime) (db : DB) :
  reachable R db ->
  NoDup (map item_id (items db)) /\
  NoDup (map list_id (lists db)) /\
  Forall (fun l => NoDup (map item_id (list_items l))) (lists db).
Proof.
  intros Hr.
  destruct (reachable_ids_fresh R db Hr) as ((H1 & _) & H2 & _ & H3).
  repeat split; trivial.
  revert H3. apply Forall_impl. now intros l [H _].
Qed.

Lemma identifiers_unique_witness :
  let R := sample_runtime in
  let today := getLocalDate (mkClock Monday January 1) in
  let db :=
    snd (handle R today (POST_root (VString "Write report") (VString "Work"))
           (snd (handle R today (GET_customNewList "work") empty_db))) in
  reachable R db /\
  map item_id (items db) = ["0"; "1"; "2"] /\
  map (fun l => map item_id (list_items l)) (lists db)
  = [["0"; "1"; "2"; "4"]] /\
  NoDup (map item_id (items db)) /\
  NoDup (map list_id (lists db)) /\
  Forall (fun l => NoDup (map item_id (list_items l))) (lists db).
Proof.
  cbv zeta.
  assert (H : reachable sample_runtime
           (snd (handle sample_runtime
                   (getLocalDate (mkClock Monday January 1))
                   (POST_root (VString "Write report") (VString "Work"))
                   (snd (handle sample_runtime
                           (getLocalDate (mkClock Monday January 1))
                           (GET_customNewList "work") empty_db)))))
    by apply reachable_handle, reachable_handle, reachable_empty.
  split; [exact H|]. split; [reflexivity|]. split; [reflexivity|].
  exact (identifiers_unique sample_runtime _ H).
Defined.
